(** * Chess game analyzer (analyzer.py): model and verified properties

    A shallow embedding of the move-evaluation and annotation pipeline of
    [analyzer.py]: the Lichess win-probability and accuracy formulas, the
    normalisation of engine scores, the per-ply annotation loop with its
    statistics, the per-player part of the report and the setup phase of
    [main].

    Conventions of the model.
    - In the annotation loop and the report a Python [float] is read as a
      real number ([R]) and [math.exp] as the real exponential [exp];
      comparisons of floats are decided with [Rle_dec] and [Rlt_dec].
      What is proved there of sums, quotients and the exponential is
      proved of exact arithmetic.  The win-probability converter is also
      given in binary64 arithmetic ([centipawns_to_win_percent_binary64]),
      with the [OverflowError] of [math.exp], to show where the program
      leaves the real-number formula.
    - A Python [int] is a [Z].
    - The statistics dictionaries have a fixed set of keys and are records.
    - The chess library is represented by what the loop reads from it: the
      side to move, the stack of moves pushed so far, and the main line
      [node.variations[0]], [node.variations[0].variations[0]], ... of the
      game as a list.  A move is identified with its SAN notation.
    - The engine is a function from a board and a depth to the score of
      [info["score"].white()]. *)

From Stdlib Require Import Reals Lra Lia ZArith List Ascii String Bool Sorted Floats.
Import ListNotations.

Open Scope R_scope.

(** ** Python primitives *)

(** [x <= y] on floats, as a boolean. *)
Definition Rleb (x y : R) : bool := if Rle_dec x y then true else false.

(** [x < y] on floats, as a boolean. *)
Definition Rltb (x y : R) : bool := if Rlt_dec x y then true else false.

(** Python's [min(a, b)]: the first argument unless the second is smaller. *)
Definition py_min (a b : R) : R := if Rltb b a then b else a.

(** Python's [max(a, b)]: the first argument unless the second is greater. *)
Definition py_max (a b : R) : R := if Rltb a b then b else a.

(** Python's true division [x / y]: [ZeroDivisionError] is [None]. *)
Definition py_div (x y : R) : option R :=
  if Req_dec_T y 0 then None else Some (x / y).

(** ** Configuration constants *)

Definition DEFAULT_DEPTH : Z := 25.
Definition DEFAULT_TOP_MOVES : Z := 5.
Definition DEFAULT_THRESH_INACCURACY : R := 0.4.
Definition DEFAULT_THRESH_MISTAKE : R := 0.8.
Definition DEFAULT_THRESH_BLUNDER : R := 1.8.

(** ** The Lichess formulas *)

(** [centipawns_to_win_percent], line 58. *)
Definition centipawns_to_win_percent (centipawns : R) : R :=
  50 + 50 * (2 / (1 + exp (-0.00368208 * centipawns)) - 1).

(** [calculate_move_accuracy], line 62. *)
Definition calculate_move_accuracy (win_percent_before win_percent_after : R) : R :=
  let win_percent_loss := win_percent_before - win_percent_after in
  let win_percent_loss := if Rltb win_percent_loss 0 then 0 else win_percent_loss in
  let accuracy := 103.1668 * exp (-0.04354 * win_percent_loss) - 3.1669 in
  py_max 0 (py_min 100 accuracy).

(** The value of [accuracy] in [calculate_move_accuracy] before the final
    clamp, as a function of the floored loss. *)
Definition raw_accuracy (win_percent_loss : R) : R :=
  103.1668 * exp (-0.04354 * win_percent_loss) - 3.1669.

(** ** Engine scores *)

(** The score returned by [info["score"].white()]: a [chess.engine.Cp], a
    [chess.engine.Mate], or a score that is an instance of neither class. *)
Inductive Score : Type :=
| Cp (score : Z)
| Mate (mate : Z)
| OtherScore.

(** ** Boards, moves and games *)

(** A move, identified with the notation [board.san(move)] gives it. *)
Definition Move : Type := string.

(** What the loop reads of a [chess.Board]: [turn] is [true] for
    [chess.WHITE]; [move_stack] holds the moves pushed so far. *)
Record Board : Type := mkBoard {
  turn : bool;
  move_stack : list Move
}.

(** [board.push(move)]. *)
Definition push (board : Board) (move : Move) : Board :=
  {| turn := negb (turn board); move_stack := move_stack board ++ [move] |}.

(** [board.san(move)]. *)
Definition san (board : Board) (move : Move) : string := move.

(** A game: the board of [game.board()] and the moves of the main line. *)
Record Game : Type := mkGame {
  game_board : Board;
  mainline : list Move
}.

(** The engine behind [engine.analyse(board, Limit(depth=depth))]. *)
Definition Engine : Type := Board -> Z -> Score.

(** [evaluate_position], line 70. *)
Definition evaluate_position (engine : Engine) (board : Board) (depth : Z) : option R :=
  match engine board depth with
  | Cp score => Some (IZR score / 100)
  | Mate mate_value => Some (if (mate_value >? 0)%Z then 100 else -100)
  | OtherScore => None
  end.

(** ** Annotations and statistics *)

Inductive Player : Type := white | black.

(** The keys of [ANNOTATIONS]: ["?!"], ["?"] and ["??"]. *)
Inductive Annotation : Type := Inaccuracy | Mistake | Blunder.

Definition symbol (a : Annotation) : string :=
  match a with
  | Inaccuracy => "?!"%string
  | Mistake => "?"%string
  | Blunder => "??"%string
  end.

(** [ANNOTATIONS]: the NAG code of each symbol. *)
Definition ANNOTATIONS (a : Annotation) : Z :=
  match a with
  | Inaccuracy => 6
  | Mistake => 2
  | Blunder => 4
  end.

(** One player's entry of [stats]: the counters under the keys [6], [2] and
    [4], and ['moves'], ['total_accuracy'] and ['accuracy_count']. *)
Record PlayerStats : Type := mkPlayerStats {
  nag6 : Z;
  nag2 : Z;
  nag4 : Z;
  moves : Z;
  total_accuracy : R;
  accuracy_count : Z
}.

(** The [stats] dictionary. *)
Record Stats : Type := mkStats {
  stats_white : PlayerStats;
  stats_black : PlayerStats;
  total_moves : Z
}.

(** An entry of [annotated_moves]. *)
Record AnnotatedMove : Type := mkAnnotatedMove {
  am_move_number : Z;
  am_player : Player;
  am_move : string;
  am_annotation : Annotation;
  am_eval_change : R;
  am_move_accuracy : option R
}.

Definition initial_player_stats : PlayerStats :=
  {| nag6 := 0; nag2 := 0; nag4 := 0; moves := 0;
     total_accuracy := 0; accuracy_count := 0 |}.

Definition initial_stats : Stats :=
  {| stats_white := initial_player_stats;
     stats_black := initial_player_stats;
     total_moves := 0 |}.

(** [stats[player]]. *)
Definition player_stats (stats : Stats) (player : Player) : PlayerStats :=
  match player with
  | white => stats_white stats
  | black => stats_black stats
  end.

Definition set_player_stats (stats : Stats) (player : Player) (ps : PlayerStats) : Stats :=
  match player with
  | white => {| stats_white := ps; stats_black := stats_black stats;
                total_moves := total_moves stats |}
  | black => {| stats_white := stats_white stats; stats_black := ps;
                total_moves := total_moves stats |}
  end.

(** [stats[player][nag]] for the NAG of an annotation. *)
Definition nag_count (ps : PlayerStats) (a : Annotation) : Z :=
  match a with
  | Inaccuracy => nag6 ps
  | Mistake => nag2 ps
  | Blunder => nag4 ps
  end.

(** [stats[current_player]['moves'] += 1; stats['total_moves'] += 1]. *)
Definition count_move (stats : Stats) (player : Player) : Stats :=
  let ps := player_stats stats player in
  let stats := set_player_stats stats player
    {| nag6 := nag6 ps; nag2 := nag2 ps; nag4 := nag4 ps;
       moves := (moves ps + 1)%Z;
       total_accuracy := total_accuracy ps;
       accuracy_count := accuracy_count ps |} in
  {| stats_white := stats_white stats; stats_black := stats_black stats;
     total_moves := (total_moves stats + 1)%Z |}.

(** [stats[current_player]['total_accuracy'] += move_accuracy;
    stats[current_player]['accuracy_count'] += 1]. *)
Definition add_accuracy (stats : Stats) (player : Player) (move_accuracy : R) : Stats :=
  let ps := player_stats stats player in
  set_player_stats stats player
    {| nag6 := nag6 ps; nag2 := nag2 ps; nag4 := nag4 ps;
       moves := moves ps;
       total_accuracy := total_accuracy ps + move_accuracy;
       accuracy_count := (accuracy_count ps + 1)%Z |}.

(** [stats[current_player][ANNOTATIONS[symbol]] += 1]. *)
Definition add_nag (stats : Stats) (player : Player) (a : Annotation) : Stats :=
  let ps := player_stats stats player in
  set_player_stats stats player
    match a with
    | Inaccuracy =>
        {| nag6 := (nag6 ps + 1)%Z; nag2 := nag2 ps; nag4 := nag4 ps;
           moves := moves ps; total_accuracy := total_accuracy ps;
           accuracy_count := accuracy_count ps |}
    | Mistake =>
        {| nag6 := nag6 ps; nag2 := (nag2 ps + 1)%Z; nag4 := nag4 ps;
           moves := moves ps; total_accuracy := total_accuracy ps;
           accuracy_count := accuracy_count ps |}
    | Blunder =>
        {| nag6 := nag6 ps; nag2 := nag2 ps; nag4 := (nag4 ps + 1)%Z;
           moves := moves ps; total_accuracy := total_accuracy ps;
           accuracy_count := accuracy_count ps |}
    end.

(** ** The annotation loop *)

(** The variables of the [while] loop of [annotate_game] that survive an
    iteration.  [ls_nags] lists, per processed node of the main line, the NAG
    set the iteration leaves on it. *)
Record LoopState : Type := mkLoopState {
  ls_board : Board;
  ls_move_number : Z;
  ls_stats : Stats;
  ls_annotated_moves : list AnnotatedMove;
  ls_nags : list (list Z)
}.

(** Line 156: the player who is about to move. *)
Definition player_to_move (board : Board) : Player :=
  if turn board then white else black.

(** Lines 166-172 and 184-190: the evaluation as centipawns from the point of
    view of the player who moves, converted to a win percentage. *)
Definition win_percent_of (current_player : Player) (evaluation : option R) : option R :=
  match evaluation with
  | Some e =>
      let cp := e * 100 in
      let cp := match current_player with black => - cp | white => cp end in
      Some (centipawns_to_win_percent cp)
  | None => None
  end.

(** Lines 208-211: the change of the evaluation seen by the player who moved. *)
Definition eval_change_of (current_player : Player) (eval_before eval_after : R) : R :=
  match current_player with
  | white => eval_after - eval_before
  | black => eval_before - eval_after
  end.

Section Driver.

Variable engine : Engine.
Variable depth : Z.
Variables thresh_inac thresh_mistake thresh_blunder : R.

(** Lines 213-227: the chain of threshold tests, most severe first. *)
Definition classify_change (eval_change : R) : option Annotation :=
  if Rleb eval_change (- thresh_blunder) then Some Blunder
  else if Rleb eval_change (- thresh_mistake) then Some Mistake
  else if Rleb eval_change (- thresh_inac) then Some Inaccuracy
  else None.

(** Lines 203-227: the annotation of a ply and the change it is based on,
    behind the gate on the move number and on both evaluations. *)
Definition ply_annotation (move_number : Z) (current_player : Player)
    (eval_before eval_after : option R) : option (R * Annotation) :=
  if (move_number >? 2)%Z then
    match eval_before, eval_after with
    | Some eb, Some ea =>
        let eval_change := eval_change_of current_player eb ea in
        match classify_change eval_change with
        | Some a => Some (eval_change, a)
        | None => None
        end
    | _, _ => None
    end
  else None.

(** One iteration of the [while] loop, lines 151-243.  The result of
    [get_top_moves] at line 175 is not used by the loop, so the parameter
    [top_moves] of [annotate_game] has no part in the model. *)
Definition annotate_ply (st : LoopState) (move : Move) : LoopState :=
  let board := ls_board st in
  let move_number := ls_move_number st in
  let move_notation := san board move in
  let current_player := player_to_move board in
  let stats := count_move (ls_stats st) current_player in
  let eval_before := evaluate_position engine board depth in
  let win_percent_before := win_percent_of current_player eval_before in
  let board := push board move in
  let eval_after := evaluate_position engine board depth in
  let win_percent_after := win_percent_of current_player eval_after in
  let move_accuracy :=
    match win_percent_before, win_percent_after with
    | Some wb, Some wa => Some (calculate_move_accuracy wb wa)
    | _, _ => None
    end in
  let stats :=
    match move_accuracy with
    | Some acc => add_accuracy stats current_player acc
    | None => stats
    end in
  let annotation := ply_annotation move_number current_player eval_before eval_after in
  {| ls_board := board;
     ls_move_number := if turn board then (move_number + 1)%Z else move_number;
     ls_stats :=
       match annotation with
       | Some (_, a) => add_nag stats current_player a
       | None => stats
       end;
     ls_annotated_moves :=
       match annotation with
       | Some (eval_change, a) =>
           ls_annotated_moves st ++
           [ {| am_move_number := move_number;
                am_player := current_player;
                am_move := move_notation;
                am_annotation := a;
                am_eval_change := eval_change;
                am_move_accuracy := move_accuracy |} ]
       | None => ls_annotated_moves st
       end;
     ls_nags :=
       ls_nags st ++
       [ match annotation with
         | Some (_, a) => [ANNOTATIONS a]
         | None => []
         end ] |}.

(** The state on entry to the loop, lines 134-145. *)
Definition initial_state (game : Game) : LoopState :=
  {| ls_board := game_board game;
     ls_move_number := 1;
     ls_stats := initial_stats;
     ls_annotated_moves := [];
     ls_nags := [] |}.

(** The loop from state [st] over the remaining moves of the main line. *)
Definition annotate_moves (remaining : list Move) (st : LoopState) : LoopState :=
  fold_left annotate_ply remaining st.

(** The state of the loop after the first [k] plies of the game. *)
Definition state_after (game : Game) (k : nat) : LoopState :=
  annotate_moves (firstn k (mainline game)) (initial_state game).

(** [annotate_game], line 132.  The three components of the result are
    the NAG sets left on the nodes of the main line, [stats] and
    [annotated_moves]. *)
Definition annotate_game (game : Game) : list (list Z) * Stats * list AnnotatedMove :=
  let st := annotate_moves (mainline game) (initial_state game) in
  (ls_nags st, ls_stats st, ls_annotated_moves st).

End Driver.

(** ** The report *)

(** Computations of the report that can raise [ZeroDivisionError] live in
    the option monad: [None] is the exception. *)
Definition bind {A B : Type} (m : option A) (k : A -> option B) : option B :=
  match m with
  | Some a => k a
  | None => None
  end.

Notation "x <- m ;; k" := (bind m (fun x => k))
  (at level 61, m at next level, right associativity).

(** What a line of the statistics part of the report displays. *)
Inductive ReportLine : Type :=
| NagLine (nag count : Z) (percentage : R)
| ErrorRateLine (error_rate : R) (total_annotations player_moves : Z)
| NoErrorsLine
| AverageAccuracyLine (avg_accuracy : R)
| AverageAccuracyNA.

(** [sum(player_stats[nag] for nag in [6, 2, 4])]. *)
Definition total_annotations (ps : PlayerStats) : Z :=
  (nag6 ps + nag2 ps + nag4 ps)%Z.

(** Lines 292-295: the line of one NAG, when its count is positive. *)
Definition nag_line (ps : PlayerStats) (nag count : Z) : option (list ReportLine) :=
  if (count >? 0)%Z then
    percentage <-
      (if (moves ps >? 0)%Z
       then q <- py_div (IZR count) (IZR (moves ps)) ;; Some (q * 100)
       else Some 0) ;;
    Some [NagLine nag count percentage]
  else Some [].

(** Line 298: the error rate. *)
Definition error_rate (ps : PlayerStats) : option R :=
  if (moves ps >? 0)%Z
  then q <- py_div (IZR (total_annotations ps)) (IZR (moves ps)) ;; Some (q * 100)
  else Some 0.

(** Lines 304-308: the average accuracy line. *)
Definition average_accuracy (ps : PlayerStats) : option ReportLine :=
  if (accuracy_count ps >? 0)%Z
  then avg_accuracy <- py_div (total_accuracy ps) (IZR (accuracy_count ps)) ;;
       Some (AverageAccuracyLine avg_accuracy)
  else Some AverageAccuracyNA.

(** Lines 287-308: the statistics of one player.  [NAG_NAMES] is iterated in
    the order of its keys 6, 2, 4. *)
Definition player_section (ps : PlayerStats) : option (list ReportLine) :=
  errors <-
    (if (total_annotations ps >? 0)%Z then
       l6 <- nag_line ps 6 (nag6 ps) ;;
       l2 <- nag_line ps 2 (nag2 ps) ;;
       l4 <- nag_line ps 4 (nag4 ps) ;;
       rate <- error_rate ps ;;
       Some (l6 ++ l2 ++ l4 ++ [ErrorRateLine rate (total_annotations ps) (moves ps)])
     else Some [NoErrorsLine]) ;;
  average <- average_accuracy ps ;;
  Some (errors ++ [average]).

(** The verdict of the comparison, lines 329-334. *)
Inductive Verdict : Type :=
| WhiteMoreAccurate (margin : R)
| BlackMoreAccurate (margin : R)
| SimilarAccuracy.

Record Comparison : Type := mkComparison {
  white_accuracy : R;
  black_accuracy : R;
  white_error_rate : R;
  black_error_rate : R;
  verdict : Verdict
}.

(** Lines 315-316: [total_accuracy / accuracy_count if accuracy_count > 0 else 0]. *)
Definition accuracy_or_zero (ps : PlayerStats) : option R :=
  if (accuracy_count ps >? 0)%Z
  then py_div (total_accuracy ps) (IZR (accuracy_count ps))
  else Some 0.

(** Lines 313-335: the comparison of the two players. *)
Definition comparison (stats : Stats) : option (option Comparison) :=
  if ((moves (stats_white stats) >? 0) && (moves (stats_black stats) >? 0))%Z then
    wa <- accuracy_or_zero (stats_white stats) ;;
    ba <- accuracy_or_zero (stats_black stats) ;;
    wq <- py_div (IZR (total_annotations (stats_white stats)))
                 (IZR (moves (stats_white stats))) ;;
    bq <- py_div (IZR (total_annotations (stats_black stats)))
                 (IZR (moves (stats_black stats))) ;;
    Some (Some {| white_accuracy := wa;
                  black_accuracy := ba;
                  white_error_rate := wq * 100;
                  black_error_rate := bq * 100;
                  verdict :=
                    if Rltb ba wa then WhiteMoreAccurate (wa - ba)
                    else if Rltb wa ba then BlackMoreAccurate (ba - wa)
                    else SimilarAccuracy |})
  else Some None.

(** The content of the report that depends on the analysis. *)
Record Report : Type := mkReport {
  report_total_moves : Z;
  report_white : list ReportLine;
  report_black : list ReportLine;
  report_comparison : option Comparison;
  report_errors : list AnnotatedMove
}.

(** [generate_report], line 247, without the formatting of its lines. *)
Definition generate_report (stats : Stats) (annotated_moves : list AnnotatedMove)
    : option Report :=
  w <- player_section (stats_white stats) ;;
  b <- player_section (stats_black stats) ;;
  c <- comparison stats ;;
  Some {| report_total_moves := total_moves stats;
          report_white := w;
          report_black := b;
          report_comparison := c;
          report_errors := annotated_moves |}.

(** ** The setup phase of [main] *)

(** The values of [args] that reach the analysis. *)
Record Args : Type := mkArgs {
  args_depth : Z;
  args_top_moves : Z;
  args_inaccuracy : R;
  args_mistake : R;
  args_blunder : R
}.

(** [parse_arguments] on a command line that gives none of the options. *)
Definition default_args : Args :=
  {| args_depth := DEFAULT_DEPTH;
     args_top_moves := DEFAULT_TOP_MOVES;
     args_inaccuracy := DEFAULT_THRESH_INACCURACY;
     args_mistake := DEFAULT_THRESH_MISTAKE;
     args_blunder := DEFAULT_THRESH_BLUNDER |}.

(** What [main] finds outside the program: whether [args.input] and
    [args.engine] exist, the result of [chess.pgn.read_game] on the input
    ([None] when there is no game to read), and the engine that
    [popen_uci] starts. *)
Record Env : Type := mkEnv {
  input_exists : bool;
  engine_exists : bool;
  read_game : option Game;
  env_engine : Engine
}.

Inductive Diagnostic : Type :=
| InputFileNotFound
| EngineNotFound
| CouldNotReadGame
| ErrorOccurred.

(** How [main] ends: [sys.exit(status)] after a diagnostic, or a normal
    return after the analysis and its report. *)
Inductive Outcome : Type :=
| Exit (status : Z) (diagnostic : Diagnostic)
| Completed (analysis : list (list Z) * Stats * list AnnotatedMove) (report : Report).

(** [main], line 459, on the paths where no library call raises: the
    input file opens, [popen_uci] starts the engine of [env], the engine
    answers every query and the two output files are written.  The
    handlers of lines 543-550, which turn any other exception into an exit
    with status 1, have no counterpart here.  The game of the model has
    neither comments, NAGs nor side variations, so cleaning it leaves it
    as it is. *)
Definition main (env : Env) (args : Args) : Outcome :=
  if negb (input_exists env) then Exit 1 InputFileNotFound
  else if negb (engine_exists env) then Exit 1 EngineNotFound
  else
    match read_game env with
    | None => Exit 1 CouldNotReadGame
    | Some game =>
        let analysis :=
          annotate_game (env_engine env) (args_depth args)
            (args_inaccuracy args) (args_mistake args) (args_blunder args) game in
        match generate_report (snd (fst analysis)) (snd analysis) with
        | Some report => Completed analysis report
        | None => Exit 1 ErrorOccurred
        end
    end.

(** ** The converter in binary64 arithmetic *)

(** [math.exp] is the exponential of the C library and not part of the
    repository.  Its value is modelled by [exp_binary64], computed in
    binary64 arithmetic: the argument is reduced by the nearest multiple
    [k] of ln 2 (split in two parts), the exponential of the remainder is
    the Taylor polynomial of degree 14, and the result is scaled by
    [2 ^ k] in exact steps. *)
#[warnings="-inexact-float"] Definition exp_binary64 (x : float) : float :=
  (let k := (x * 1.4426950408889634 + 6755399441055744) - 6755399441055744 in
   let r := (x - k * 0.693145751953125) - k * 1.4286068203094173e-06 in
   let p :=
     1 + r * (1 + r / 2 * (1 + r / 3 * (1 + r / 4 * (1 + r / 5 * (1 + r / 6 *
     (1 + r / 7 * (1 + r / 8 * (1 + r / 9 * (1 + r / 10 * (1 + r / 11 *
     (1 + r / 12 * (1 + r / 13 * (1 + r / 14))))))))))))) in
   (fix scale (fuel : nat) (k p : float) {struct fuel} : float :=
      match fuel with
      | O => p
      | S fuel' =>
          if 1 <=? k then scale fuel' (k - 1) (p * 2)
          else if k <=? -1 then scale fuel' (k + 1) (p * 0.5)
          else p
      end) 1100%nat k p)%float.

(** [math.exp(x)]: [OverflowError], here [None], when the result exceeds
    the largest float, that is for [x] above 709.782712893384. *)
#[warnings="-inexact-float"] Definition math_exp (x : float) : option float :=
  if (709.782712893384 <? x)%float then None else Some (exp_binary64 x).

(** [centipawns_to_win_percent], line 58, in binary64 arithmetic. *)
#[warnings="-inexact-float"] Definition centipawns_to_win_percent_binary64 (centipawns : float) : option float :=
  match math_exp (-0.00368208 * centipawns)%float with
  | Some e => Some (50 + 50 * (2 / (1 + e) - 1))%float
  | None => None
  end.

(** ** Scores relative to a side *)

(** [info["score"]] is a score together with the side it is relative to,
    for an engine the side to move.  The classes of python-chess, which is
    not part of the repository, are modelled from its documentation: a
    score is a [Cp], a [Mate] or the single value [MateGiven], which is
    the [OtherScore] of this model; the negation of [Mate(0)] is
    [MateGiven] and the negation of [MateGiven] is [Mate(0)]. *)
Record PovScore : Type := mkPovScore {
  relative : Score;
  pov_turn : bool
}.

(** [-score]. *)
Definition score_neg (score : Score) : Score :=
  match score with
  | Cp cp => Cp (- cp)
  | Mate moves => if (moves =? 0)%Z then OtherScore else Mate (- moves)
  | OtherScore => Mate 0
  end.

(** [info["score"].white()]. *)
Definition white_score (score : PovScore) : Score :=
  if pov_turn score then relative score else score_neg (relative score).

(** ** Sample games *)

(** An engine that answers by the number of moves played so far: the
    [k]-th score of the list for the position after [k] plies. *)
Definition scripted_engine (scores : list Score) : Engine :=
  fun board _ => nth (List.length (move_stack board)) scores OtherScore.

Definition initial_board : Board := {| turn := true; move_stack := [] |}.

(** The four-ply game whose evaluations, in pawns for White, are
    0.0, 0.2, 0.1, -1.0 and -3.0 before ply 1 and after plies 1 to 4. *)
Definition synthetic_scores : list Score :=
  [Cp 0; Cp 20; Cp 10; Cp (-100); Cp (-300)].

Definition synthetic_game : Game :=
  {| game_board := initial_board;
     mainline := ["e4"; "e5"; "Qh5"; "Nc6"]%string |}.

(** The same five evaluations after four quiet plies. *)
Definition shifted_scores : list Score :=
  [Cp 0; Cp 0; Cp 0; Cp 0; Cp 0; Cp 20; Cp 10; Cp (-100); Cp (-300)].

Definition shifted_game : Game :=
  {| game_board := initial_board;
     mainline := ["d4"; "d5"; "c4"; "e6"; "Nc3"; "Nf6"; "Bg5"; "Be7"]%string |}.

(** The shifted game with an engine that has no usable score for the
    position after ply 7. *)
Definition degraded_scores : list Score :=
  [Cp 0; Cp 0; Cp 0; Cp 0; Cp 0; Cp 20; Cp 10; OtherScore; Cp (-300)].

(** A game that was read but has no move. *)
Definition empty_game : Game :=
  {| game_board := initial_board; mainline := [] |}.

(** The report of an analysis that processed no ply. *)
Definition empty_report : Report :=
  {| report_total_moves := 0;
     report_white := [NoErrorsLine; AverageAccuracyNA];
     report_black := [NoErrorsLine; AverageAccuracyNA];
     report_comparison := None;
     report_errors := [] |}.

(** An environment in which both files exist, the input holds [game] and
    the engine answers from [scores]. *)
Definition sample_env (game : Game) (scores : list Score) : Env :=
  {| input_exists := true;
     engine_exists := true;
     read_game := Some game;
     env_engine := scripted_engine scores |}.

(** Thresholds given in the reverse order:
    [--inaccuracy 1.8 --mistake 0.8 --blunder 0.4]. *)
Definition reversed_args : Args :=
  {| args_depth := DEFAULT_DEPTH;
     args_top_moves := DEFAULT_TOP_MOVES;
     args_inaccuracy := 1.8;
     args_mistake := 0.8;
     args_blunder := 0.4 |}.

(** ** Readings of the specification that the code is compared with *)

(** The ordering of the thresholds that the classifier is designed for. *)
Definition thresholds_ordered (thresh_inac thresh_mistake thresh_blunder : R) : Prop :=
  0 < thresh_inac /\ thresh_inac < thresh_mistake /\ thresh_mistake < thresh_blunder.

(** The warm-up read as a window of two plies: plies 1 and 2 append
    nothing, and every later ply (index [k >= 2] from 0) with both
    evaluations defined and a change of at most the negated inaccuracy
    threshold appends an entry. *)
Definition two_ply_warmup (engine : Engine) (depth : Z)
    (thresh_inac thresh_mistake thresh_blunder : R) (game : Game) : Prop :=
  let state k := state_after engine depth thresh_inac thresh_mistake thresh_blunder game k in
  (forall k : nat,
      (k < 2)%nat ->
      ls_annotated_moves (state (S k)) = ls_annotated_moves (state k)) /\
  (forall (k : nat) (move : Move) (eb ea : R),
      (2 <= k)%nat ->
      nth_error (mainline game) k = Some move ->
      evaluate_position engine (ls_board (state k)) depth = Some eb ->
      evaluate_position engine (push (ls_board (state k)) move) depth = Some ea ->
      eval_change_of (player_to_move (ls_board (state k))) eb ea <= - thresh_inac ->
      exists entry,
        ls_annotated_moves (state (S k)) = ls_annotated_moves (state k) ++ [entry]).

(** A setup that rejects thresholds which are not ordered. *)
Definition rejects_unordered_thresholds (env : Env) (args : Args) : Prop :=
  ~ thresholds_ordered (args_inaccuracy args) (args_mistake args) (args_blunder args) ->
  exists status diagnostic, main env args = Exit status diagnostic.

(** A setup that rejects a game without moves. *)
Definition rejects_game_without_moves (env : Env) (args : Args) : Prop :=
  forall game : Game,
    read_game env = Some game -> mainline game = [] ->
    exists status diagnostic, main env args = Exit status diagnostic.

(** ** The multi-line query *)

(** An entry of the list that [engine.analyse(..., multipv=n)] returns: the
    principal variation under the key ["pv"], when the key is there, and
    the score of [entry["score"].pov(board.turn)]. *)
Record InfoEntry : Type := mkInfoEntry {
  entry_pv : option (list Move);
  entry_score : Score
}.

(** The value of [info]: a list of entries, or a single entry. *)
Inductive Analysis : Type :=
| InfoList (entries : list InfoEntry)
| InfoSingle (entry : InfoEntry).

(** The engine behind [engine.analyse(board, Limit(depth=depth), multipv=n)]. *)
Definition MultiPVEngine : Type := Board -> Z -> Z -> Analysis.

(** The body of the [for] loop of [get_top_moves], lines 91-103. *)
Definition top_move_of (entry : InfoEntry) : option (Move * R) :=
  match entry_pv entry with
  | Some (move :: _) =>
      match entry_score entry with
      | Cp score => Some (move, IZR score / 100)
      | Mate mate_value => Some (move, if (mate_value >? 0)%Z then 100 else -100)
      | OtherScore => None
      end
  | _ => None
  end.

(** [get_top_moves], line 83. *)
Definition get_top_moves (engine : MultiPVEngine) (board : Board) (depth n : Z)
    : list (Move * R) :=
  let info := engine board depth n in
  let entries := match info with InfoList l => l | InfoSingle e => [e] end in
  fold_left
    (fun top_moves entry =>
       match top_move_of entry with
       | Some top => top_moves ++ [top]
       | None => top_moves
       end)
    entries [].

(** ** Game trees and their cleaning *)

(** A node of the game below the root: its move, comment and NAG set, and
    its variations, the first of which continues the main line. *)
#[warnings="-register-all"] Inductive GameNode : Type :=
| Node (move : Move) (comment : string) (nags : list Z) (variations : list GameNode).

(** The root of a game as [chess.pgn.read_game] returns it. *)
Record GameTree : Type := mkGameTree {
  tree_board : Board;
  tree_comment : string;
  tree_nags : list Z;
  tree_variations : list GameNode
}.

(** [clean_node], line 113, on a node below the root. *)
Fixpoint clean_node (node : GameNode) : GameNode :=
  match node with
  | Node move _ _ variations => Node move EmptyString [] (map clean_node variations)
  end.

(** [keep_mainline_only], line 122, on a node below the root. *)
Fixpoint keep_mainline_only (node : GameNode) : GameNode :=
  match node with
  | Node move comment nags variations =>
      Node move comment nags
        match variations with
        | [] => []
        | main_variation :: _ => [keep_mainline_only main_variation]
        end
  end.

(** [clean_game_annotations], line 107. *)
Definition clean_game_annotations (game : GameTree) : GameTree :=
  let cleaned := map clean_node (tree_variations game) in
  {| tree_board := tree_board game;
     tree_comment := EmptyString;
     tree_nags := [];
     tree_variations :=
       match cleaned with
       | [] => []
       | main_variation :: _ => [keep_mainline_only main_variation]
       end |}.

(** The moves that the loop of [annotate_game] meets from a node on: the
    node's own move, then those along [variations[0]]. *)
Fixpoint node_mainline (node : GameNode) : list Move :=
  match node with
  | Node move _ _ variations =>
      move :: match variations with
              | [] => []
              | current_node :: _ => node_mainline current_node
              end
  end.

(** The game that [annotate_game] walks through in a tree. *)
Definition game_of_tree (game : GameTree) : Game :=
  {| game_board := tree_board game;
     mainline :=
       match tree_variations game with
       | [] => []
       | current_node :: _ => node_mainline current_node
       end |}.

(** A node without comment and NAG that has at most one variation, itself
    of that kind. *)
Fixpoint bare_line (node : GameNode) : bool :=
  match node with
  | Node _ comment nags variations =>
      match comment, nags, variations with
      | EmptyString, [], [] => true
      | EmptyString, [], [next] => bare_line next
      | _, _, _ => false
      end
  end.

Definition bare_game (game : GameTree) : bool :=
  match tree_comment game, tree_nags game, tree_variations game with
  | EmptyString, [], [] => true
  | EmptyString, [], [next] => bare_line next
  | _, _, _ => false
  end.

(** The number of nodes below a node, itself included. *)
Fixpoint node_count (node : GameNode) : nat :=
  match node with
  | Node _ _ _ variations => S (list_sum (map node_count variations))
  end.

(** ** Counting annotated moves *)

Definition Player_eqb (p q : Player) : bool :=
  match p, q with
  | white, white | black, black => true
  | _, _ => false
  end.

Definition Annotation_eqb (a b : Annotation) : bool :=
  match a, b with
  | Inaccuracy, Inaccuracy | Mistake, Mistake | Blunder, Blunder => true
  | _, _ => false
  end.

(** The number of entries of [annotated_moves] for a player and a symbol. *)
Definition count_annotated (player : Player) (a : Annotation)
    (annotated_moves : list AnnotatedMove) : Z :=
  Z.of_nat
    (List.length
       (filter (fun entry =>
                  Player_eqb (am_player entry) player
                  && Annotation_eqb (am_annotation entry) a)
               annotated_moves)).

(** The largest value of [calculate_move_accuracy]. *)
Definition max_accuracy : R := 103.1668 - 3.1669.

(** ** Consistency of the statistics and of the annotated moves *)

(** What the counters of one player satisfy throughout the loop. *)
Definition player_stats_consistent (ps : PlayerStats) : Prop :=
  (0 <= nag6 ps)%Z /\ (0 <= nag2 ps)%Z /\ (0 <= nag4 ps)%Z /\
  (total_annotations ps <= accuracy_count ps)%Z /\
  (accuracy_count ps <= moves ps)%Z /\
  0 <= total_accuracy ps /\
  total_accuracy ps <= max_accuracy * IZR (accuracy_count ps).

Definition stats_consistent (stats : Stats) : Prop :=
  player_stats_consistent (stats_white stats) /\
  player_stats_consistent (stats_black stats) /\
  total_moves stats = (moves (stats_white stats) + moves (stats_black stats))%Z.

(** What an entry of [annotated_moves] records about its ply: a move
    number past the gate, the symbol the classifier gives its change, and
    the accuracy of the two evaluations the change was computed from. *)
Definition entry_consistent (thresh_inac thresh_mistake thresh_blunder : R)
    (entry : AnnotatedMove) : Prop :=
  (am_move_number entry > 2)%Z /\
  classify_change thresh_inac thresh_mistake thresh_blunder (am_eval_change entry)
    = Some (am_annotation entry) /\
  exists eb ea wb wa : R,
    am_eval_change entry = eval_change_of (am_player entry) eb ea /\
    win_percent_of (am_player entry) (Some eb) = Some wb /\
    win_percent_of (am_player entry) (Some ea) = Some wa /\
    am_move_accuracy entry = Some (calculate_move_accuracy wb wa).

(** The NAG sets the loop can leave on a node. *)
Definition nag_set_ok (nags : list Z) : Prop :=
  nags = [] \/ nags = [6%Z] \/ nags = [2%Z] \/ nags = [4%Z].

(** The entries appended so far: each is consistent with its ply, none
    carries a move number above the current one, and the move numbers are
    in non-decreasing order. *)
Definition entries_invariant (thresh_inac thresh_mistake thresh_blunder : R)
    (st : LoopState) : Prop :=
  Forall (entry_consistent thresh_inac thresh_mistake thresh_blunder)
    (ls_annotated_moves st) /\
  Forall (fun x => (x <= ls_move_number st)%Z)
    (map am_move_number (ls_annotated_moves st)) /\
  Sorted Z.le (map am_move_number (ls_annotated_moves st)).

(** The counters of each player and symbol count the entries of the list. *)
Definition counters_invariant (st : LoopState) : Prop :=
  forall (q : Player) (b : Annotation),
    count_annotated q b (ls_annotated_moves st)
    = nag_count (player_stats (ls_stats st) q) b.

(** Every NAG set is one the loop can leave, and the nodes that carry a
    NAG are as many as the annotated moves. *)
Definition nags_invariant (st : LoopState) : Prop :=
  Forall nag_set_ok (ls_nags st) /\
  List.length (filter (fun nags => negb (Nat.eqb (List.length nags) 0)) (ls_nags st))
  = List.length (ls_annotated_moves st).

(** A line of the report whose percentages lie between 0 and 100 and
    whose average accuracy is not negative. *)
Definition report_line_in_range (line : ReportLine) : Prop :=
  match line with
  | NagLine _ _ percentage => 0 <= percentage <= 100
  | ErrorRateLine rate _ _ => 0 <= rate <= 100
  | NoErrorsLine => True
  | AverageAccuracyLine avg => 0 <= avg
  | AverageAccuracyNA => True
  end.

(** A reply to a multi-line query with five lines: a usable one, one
    without the key ["pv"], one with an empty variation, a mate against the
    side to move, and one whose score is of neither kind. *)
Definition sample_multipv : MultiPVEngine :=
  fun _ _ _ =>
    InfoList
      [ {| entry_pv := Some ["e4"; "e5"]%string; entry_score := Cp 30 |};
        {| entry_pv := None; entry_score := Cp 10 |};
        {| entry_pv := Some []; entry_score := Mate 1 |};
        {| entry_pv := Some ["d4"]%string; entry_score := Mate (-2) |};
        {| entry_pv := Some ["c4"]%string; entry_score := OtherScore |} ].

(** The entries of a reply, lines 85-88. *)
Definition entries_of (info : Analysis) : list InfoEntry :=
  match info with
  | InfoList l => l
  | InfoSingle e => [e]
  end.

(** A game with comments, NAGs and side variations: the main line
    1. e4 e5 2. Nf3 with the alternatives 1... c5 and 1. d4. *)
Definition sample_tree : GameTree :=
  {| tree_board := initial_board;
     tree_comment := "annotated by hand"%string;
     tree_nags := [];
     tree_variations :=
       [ Node "e4"%string "best by test"%string [1%Z]
           [ Node "e5"%string EmptyString []
               [ Node "Nf3"%string "main"%string [2%Z; 6%Z] [] ];
             Node "c5"%string "Sicilian"%string [5%Z] [] ];
         Node "d4"%string EmptyString [] [ Node "d5"%string EmptyString [] [] ] ] |}.

(** ** The vocabulary scripts (lexicon.py, add_verbs.py)

    A Python [str] is read as the string of its UTF-8 bytes; the scripts
    only search for and replace ASCII characters, which no byte of a longer
    UTF-8 sequence equals.  [input()] reads the next line of a list of
    lines and raises [EOFError], here [None], when the list is exhausted;
    [str.strip] is a parameter. *)

Definition double_quote : ascii := "034"%char.
Definition backslash : ascii := "092"%char.
Definition asterisk : ascii := "*"%char.

(** [s.replace(old, new)] for a pattern [old] of one character. *)
Fixpoint str_replace_char (old : ascii) (new : string) (s : string) : string :=
  match s with
  | EmptyString => EmptyString
  | String c rest =>
      if Ascii.eqb c old
      then String.append new (str_replace_char old new rest)
      else String c (str_replace_char old new rest)
  end.

(** [c in s] for a character [c]. *)
Fixpoint str_contains_char (c : ascii) (s : string) : bool :=
  match s with
  | EmptyString => false
  | String c' rest => Ascii.eqb c' c || str_contains_char c rest
  end.

(** The number of occurrences of a character. *)
Fixpoint str_count_char (c : ascii) (s : string) : nat :=
  match s with
  | EmptyString => 0
  | String c' rest => (if Ascii.eqb c' c then 1 else 0) + str_count_char c rest
  end.

(** [escape_yaml_string], lexicon.py line 65. *)
Definition escape_yaml_string (s : string) : string :=
  str_replace_char double_quote (String backslash (String double_quote EmptyString)) s.

(** lexicon.py lines 104-109: the term and its stressed form. *)
Definition term_and_stressed (term_input : string) : string * string :=
  if str_contains_char asterisk term_input
  then (str_replace_char asterisk EmptyString term_input, term_input)
  else (term_input, term_input).

(** An element of the list of verbs. *)
Record Verb : Type := mkVerb {
  verb_base : string;
  verb_past : string;
  verb_participle : string
}.

(** [load_verbs], add_verbs.py line 55, on the parsed content of the data
    file, [None] when the file does not exist. *)
Definition load_verbs (file : option (list Verb)) : list Verb :=
  match file with
  | Some verbs => verbs
  | None => []
  end.

(** Whether a string is empty, the test [not base]. *)
Definition str_is_empty (s : string) : bool :=
  match s with
  | EmptyString => true
  | String _ _ => false
  end.

Section AddVerbs.

Variable strip : string -> string.

(** The [while] loop of [main], add_verbs.py lines 75-87, over the lines
    still to be read from the input. *)
Fixpoint read_verbs (inputs : list string) (verbs : list Verb) : option (list Verb) :=
  match inputs with
  | [] => None
  | line :: rest =>
      let base := strip line in
      if str_is_empty base then Some verbs
      else
        match rest with
        | past_line :: participle_line :: rest' =>
            read_verbs rest'
              (verbs ++ [ {| verb_base := base;
                             verb_past := strip past_line;
                             verb_participle := strip participle_line |} ])
        | _ => None
        end
  end.

(** How [main] of add_verbs.py ends: after the help text, after saving
    the list, or with [EOFError] before anything was saved. *)
Inductive VerbsOutcome : Type :=
| HelpShown
| Saved (verbs : list Verb)
| InputEnded.

(** [main], add_verbs.py line 67; [args] is [sys.argv[1:]]. *)
Definition add_verbs_main (args : list string) (file : option (list Verb))
    (inputs : list string) : VerbsOutcome :=
  match args with
  | first :: _ =>
      if (String.eqb first "-h" || String.eqb first "--help")%string%bool then HelpShown
      else
        match read_verbs inputs (load_verbs file) with
        | Some verbs => Saved verbs
        | None => InputEnded
        end
  | [] =>
      match read_verbs inputs (load_verbs file) with
      | Some verbs => Saved verbs
      | None => InputEnded
      end
  end.

End AddVerbs.

(** The accuracy of a ply, lines 193-195: defined when both evaluations
    are. *)
Definition ply_accuracy (engine : Engine) (depth : Z) (board : Board) (move : Move)
    : option R :=
  match win_percent_of (player_to_move board) (evaluate_position engine board depth),
        win_percent_of (player_to_move board)
          (evaluate_position engine (push board move) depth) with
  | Some wb, Some wa => Some (calculate_move_accuracy wb wa)
  | _, _ => None
  end.

(** Two loop states that agree on the board and on everything in the
    statistics but the severity counters. *)
Definition same_accuracy_statistics (st1 st2 : LoopState) : Prop :=
  ls_board st1 = ls_board st2 /\
  total_moves (ls_stats st1) = total_moves (ls_stats st2) /\
  forall q : Player,
    moves (player_stats (ls_stats st1) q) = moves (player_stats (ls_stats st2) q) /\
    accuracy_count (player_stats (ls_stats st1) q)
    = accuracy_count (player_stats (ls_stats st2) q) /\
    total_accuracy (player_stats (ls_stats st1) q)
    = total_accuracy (player_stats (ls_stats st2) q).

(** The converter of the program as a total function into the open
    interval (0,100). *)
Definition binary64_total_into_open_interval : Prop :=
  forall centipawns : float,
    exists w,
      centipawns_to_win_percent_binary64 centipawns = Some w /\
      (0 <? w)%float = true /\ (w <? 100)%float = true.

(** A delivered mate, reported by the engine as a mate in 0 for the side
    to move, evaluated as -100 whichever side is to move. *)
Definition delivered_mate_is_minus_100 : Prop :=
  forall (side_to_move : bool) (board : Board) (depth : Z),
    evaluate_position
      (fun _ _ => white_score {| relative := Mate 0; pov_turn := side_to_move |})
      board depth
    = Some (-100).

(** The lines typed for a list of verbs, three per verb. *)
Definition lines_of_verbs (entered : list (string * string * string)) : list string :=
  flat_map (fun '(base, past, participle) => [base; past; participle]) entered.

(** The verb made of three lines, lines 76-86 of add_verbs.py. *)
Definition verb_of_lines (strip : string -> string)
    (lines : string * string * string) : Verb :=
  let '(base, past, participle) := lines in
  {| verb_base := strip base;
     verb_past := strip past;
     verb_participle := strip participle |}.

(** * Properties *)

(** ** Comparisons and clamps *)

Lemma Rleb_true (x y : R) : Rleb x y = true <-> x <= y.
Proof. unfold Rleb; destruct (Rle_dec x y); split; intros; try discriminate; tauto. Qed.

Lemma Rleb_false (x y : R) : Rleb x y = false <-> y < x.
Proof.
  unfold Rleb; destruct (Rle_dec x y); split; intros; try discriminate; try lra; reflexivity.
Qed.

Lemma Rltb_true (x y : R) : Rltb x y = true <-> x < y.
Proof. unfold Rltb; destruct (Rlt_dec x y); split; intros; try discriminate; tauto. Qed.

Lemma Rltb_false (x y : R) : Rltb x y = false <-> y <= x.
Proof.
  unfold Rltb; destruct (Rlt_dec x y); split; intros; try discriminate; try lra; reflexivity.
Qed.

Lemma py_min_Rmin (a b : R) : py_min a b = Rmin a b.
Proof.
  unfold py_min, Rmin. destruct (Rltb b a) eqn:E.
  - apply Rltb_true in E. destruct (Rle_dec a b); lra.
  - apply Rltb_false in E. destruct (Rle_dec a b); lra.
Qed.

Lemma py_max_Rmax (a b : R) : py_max a b = Rmax a b.
Proof.
  unfold py_max, Rmax. destruct (Rltb a b) eqn:E.
  - apply Rltb_true in E. destruct (Rle_dec a b); lra.
  - apply Rltb_false in E. destruct (Rle_dec a b); lra.
Qed.

(** ** The win-probability converter *)

Lemma centipawns_to_win_percent_closed_form (centipawns : R) :
  centipawns_to_win_percent centipawns = 100 / (1 + exp (-0.00368208 * centipawns)).
Proof.
  unfold centipawns_to_win_percent.
  pose proof (exp_pos (-0.00368208 * centipawns)) as He.
  field. lra.
Qed.

Lemma centipawns_to_win_percent_range (centipawns : R) :
  0 < centipawns_to_win_percent centipawns < 100.
Proof.
  rewrite centipawns_to_win_percent_closed_form.
  pose proof (exp_pos (-0.00368208 * centipawns)) as He.
  set (e := exp (-0.00368208 * centipawns)) in *.
  split.
  - apply Rdiv_lt_0_compat; lra.
  - apply Rmult_lt_reg_r with (1 + e); [lra|].
    unfold Rdiv. rewrite Rmult_assoc, Rinv_l by lra. lra.
Qed.

Lemma centipawns_to_win_percent_0 : centipawns_to_win_percent 0 = 50.
Proof.
  unfold centipawns_to_win_percent.
  replace (-0.00368208 * 0) with 0 by ring.
  rewrite exp_0. field.
Qed.

(** The converter of the program at three inputs, computed in binary64
    arithmetic. *)
Lemma centipawns_to_win_percent_binary64_values :
  centipawns_to_win_percent_binary64 0 = Some 50%float /\
  centipawns_to_win_percent_binary64 10000 = Some 100%float /\
  centipawns_to_win_percent_binary64 (-200000) = None.
Proof. repeat split; vm_compute; reflexivity. Qed.

(** The program is not a total function into the open interval (0,100):
    at 10000 centipawns, the value the loop passes for a forced mate, it
    returns exactly 100. *)
Lemma binary64_leaves_open_interval : ~ binary64_total_into_open_interval.
Proof.
  intros H. destruct (H 10000%float) as (w & Hw & _ & Hlt).
  destruct centipawns_to_win_percent_binary64_values as (_ & H100 & _).
  rewrite H100 in Hw. injection Hw as <-.
  vm_compute in Hlt. discriminate.
Qed.

(** C6 as the code has it. Read over the real numbers, the converter is
    defined on every input, takes its values strictly between 0 and 100
    (so does the loop's conversion of an evaluation in pawns, for either
    player) and maps 0 to exactly 50.  The program, which computes in
    binary64, also maps 0 to exactly 50, but returns exactly 100 at 10000
    centipawns and raises [OverflowError] at -200000 centipawns. *)
Theorem win_probability_real_and_binary64 :
  (forall centipawns : R, 0 < centipawns_to_win_percent centipawns < 100) /\
  (forall (player : Player) (pawns : R),
      exists w, win_percent_of player (Some pawns) = Some w /\ 0 < w < 100) /\
  centipawns_to_win_percent 0 = 50 /\
  (forall player : Player, win_percent_of player (Some 0) = Some 50) /\
  centipawns_to_win_percent_binary64 0 = Some 50%float /\
  centipawns_to_win_percent_binary64 10000 = Some 100%float /\
  centipawns_to_win_percent_binary64 (-200000) = None.
Proof.
  split; [exact centipawns_to_win_percent_range|].
  split.
  { intros player pawns. unfold win_percent_of.
    eexists; split; [reflexivity|]. apply centipawns_to_win_percent_range. }
  split; [exact centipawns_to_win_percent_0|].
  split.
  { intros player. unfold win_percent_of. f_equal.
    rewrite <- centipawns_to_win_percent_0. f_equal.
    destruct player; ring. }
  exact centipawns_to_win_percent_binary64_values.
Qed.

(** ** The accuracy calculator *)

(** The loss after the floor at 0, line 65. *)
Lemma calculate_move_accuracy_unfold (wb wa : R) :
  calculate_move_accuracy wb wa =
  Rmax 0 (Rmin 100 (raw_accuracy (Rmax 0 (wb - wa)))).
Proof.
  unfold calculate_move_accuracy, raw_accuracy.
  rewrite py_max_Rmax, py_min_Rmin.
  replace (if Rltb (wb - wa) 0 then 0 else wb - wa) with (Rmax 0 (wb - wa)); [reflexivity|].
  unfold Rmax. destruct (Rltb (wb - wa) 0) eqn:E.
  - apply Rltb_true in E. destruct (Rle_dec 0 (wb - wa)); lra.
  - apply Rltb_false in E. destruct (Rle_dec 0 (wb - wa)); lra.
Qed.

Lemma exp_le_mono (x y : R) : x <= y -> exp x <= exp y.
Proof.
  intros [Hlt | ->]; [left; now apply exp_increasing | right; reflexivity].
Qed.

Lemma raw_accuracy_antitone (l1 l2 : R) :
  l1 <= l2 -> raw_accuracy l2 <= raw_accuracy l1.
Proof.
  intros H. unfold raw_accuracy.
  assert (exp (-0.04354 * l2) <= exp (-0.04354 * l1)) by (apply exp_le_mono; lra).
  lra.
Qed.

Lemma raw_accuracy_0 : raw_accuracy 0 = 103.1668 - 3.1669.
Proof.
  unfold raw_accuracy. replace (-0.04354 * 0) with 0 by ring.
  rewrite exp_0. ring.
Qed.

(** [exp 4.354 > 47], by four squarings of [exp 0.272125 >= 1.272125]. *)
Lemma exp_4354_lower : 47 < exp 4.354.
Proof.
  pose proof (exp_ineq1_le 0.272125) as H0.
  assert (H1 : exp 0.54425 = exp 0.272125 * exp 0.272125)
    by (rewrite <- exp_plus; f_equal; lra).
  assert (H2 : exp 1.0885 = exp 0.54425 * exp 0.54425)
    by (rewrite <- exp_plus; f_equal; lra).
  assert (H3 : exp 2.177 = exp 1.0885 * exp 1.0885)
    by (rewrite <- exp_plus; f_equal; lra).
  assert (H4 : exp 4.354 = exp 2.177 * exp 2.177)
    by (rewrite <- exp_plus; f_equal; lra).
  assert (B1 : 1.6182 <= exp 0.54425) by (rewrite H1; nra).
  assert (B2 : 2.6185 <= exp 1.0885) by (rewrite H2; nra).
  assert (B3 : 6.856 <= exp 2.177) by (rewrite H3; nra).
  rewrite H4. nra.
Qed.

Lemma raw_accuracy_100_negative : raw_accuracy 100 < 0.
Proof.
  unfold raw_accuracy.
  replace (-0.04354 * 100) with (Ropp 4.354) by lra.
  rewrite exp_Ropp.
  pose proof exp_4354_lower as H.
  assert (Hinv : / exp 4.354 < / 47) by (apply Rinv_lt_contravar; nra).
  lra.
Qed.

Lemma clamp_monotone (x y : R) :
  x <= y -> Rmax 0 (Rmin 100 x) <= Rmax 0 (Rmin 100 y).
Proof.
  intros H. apply Rmax_case_strong; apply Rmax_case_strong;
    apply Rmin_case_strong; apply Rmin_case_strong; intros; lra.
Qed.

(** C7. Over the reals, [calculate_move_accuracy] is the clamp to [0,100]
    of the formula applied to the loss floored at 0, and returns a value in
    [0,100]; a larger loss [win_percent_before - win_percent_after] never
    gives a larger accuracy; a loss that is negative or zero (in particular
    equal inputs) gives 103.1668 - 3.1669, which is the largest value the
    function takes; and at a loss of 100 the formula before the clamp is
    negative and the result is 0. *)
Theorem calculate_move_accuracy_properties :
  (forall wb wa : R,
      calculate_move_accuracy wb wa
      = Rmax 0 (Rmin 100 (raw_accuracy (Rmax 0 (wb - wa))))) /\
  raw_accuracy 0 = 103.1668 - 3.1669 /\
  (forall wb wa : R, 0 <= calculate_move_accuracy wb wa <= 100) /\
  (forall wb1 wa1 wb2 wa2 : R,
      wb1 - wa1 <= wb2 - wa2 ->
      calculate_move_accuracy wb2 wa2 <= calculate_move_accuracy wb1 wa1) /\
  (forall wb wa : R,
      wb - wa <= 0 -> calculate_move_accuracy wb wa = 103.1668 - 3.1669) /\
  (forall w : R, calculate_move_accuracy w w = 103.1668 - 3.1669) /\
  (forall wb wa : R, calculate_move_accuracy wb wa <= 103.1668 - 3.1669) /\
  raw_accuracy 100 < 0 /\
  (forall wb wa : R, wb - wa = 100 -> calculate_move_accuracy wb wa = 0).
Proof.
  assert (Hzero : forall wb wa : R,
             wb - wa <= 0 -> calculate_move_accuracy wb wa = 103.1668 - 3.1669).
  { intros wb wa H. rewrite calculate_move_accuracy_unfold.
    rewrite (Rmax_left 0 (wb - wa)) by lra.
    rewrite raw_accuracy_0.
    rewrite Rmin_right by lra. rewrite Rmax_right by lra. reflexivity. }
  assert (Hmono : forall wb1 wa1 wb2 wa2 : R,
             wb1 - wa1 <= wb2 - wa2 ->
             calculate_move_accuracy wb2 wa2 <= calculate_move_accuracy wb1 wa1).
  { intros wb1 wa1 wb2 wa2 H. rewrite !calculate_move_accuracy_unfold.
    apply clamp_monotone, raw_accuracy_antitone.
    apply Rmax_case_strong; apply Rmax_case_strong; intros; lra. }
  split; [exact calculate_move_accuracy_unfold|].
  split; [exact raw_accuracy_0|].
  repeat split.
  - rewrite calculate_move_accuracy_unfold. apply Rmax_l.
  - rewrite calculate_move_accuracy_unfold.
    apply Rmax_case_strong; intros; [lra|]. apply Rmin_l.
  - exact Hmono.
  - exact Hzero.
  - intros w. apply Hzero. lra.
  - intros wb wa. destruct (Rle_dec (wb - wa) 0) as [H | H].
    + rewrite Hzero by assumption. lra.
    + rewrite <- (Hzero wb wb) by lra. apply Hmono. lra.
  - exact raw_accuracy_100_negative.
  - intros wb wa H. rewrite calculate_move_accuracy_unfold, H.
    rewrite (Rmax_right 0 100) by lra.
    pose proof raw_accuracy_100_negative.
    rewrite Rmin_right by lra. rewrite Rmax_left by lra. reflexivity.
Qed.

Lemma calculate_move_accuracy_properties_witness :
  calculate_move_accuracy 70 50 <= calculate_move_accuracy 60 50 /\
  calculate_move_accuracy 40 50 = 103.1668 - 3.1669 /\
  calculate_move_accuracy 100 0 = 0.
Proof.
  pose proof calculate_move_accuracy_properties
    as [_ [_ [_ [Hmono [Hzero [_ [_ [_ Hbig]]]]]]]].
  split; [apply Hmono; lra|].
  split; [apply Hzero; lra | apply Hbig; lra].
Defined.

(** ** The position evaluator *)

(** A mate delivered by White reaches [evaluate_position] with Black to
    move; the score seen from White is then [MateGiven], not a [Mate], and
    the result is [None], not -100. *)
Lemma delivered_mate_by_white_is_unavailable : ~ delivered_mate_is_minus_100.
Proof.
  intros H. specialize (H false (mkBoard false []) 25%Z).
  discriminate H.
Qed.

(** C10 as the code has it. [evaluate_position] returns the centipawn
    score divided by 100 for a centipawn score, 100 for a mate score with a
    strictly positive mate distance, -100 for a mate score with a mate
    distance of 0 or less, and [None] for every other kind of score, and
    only then.  A delivered mate, which the engine reports as a mate in 0
    for the side to move, gives -100 when White is the side to move (White
    is mated); when Black is the side to move (White has mated) the score
    seen from White is [MateGiven], which is not a mate score, and the
    result is [None]. *)
Theorem evaluate_position_by_score_kind (engine : Engine) (board : Board) (depth : Z) :
  (forall score : Z,
      engine board depth = Cp score ->
      evaluate_position engine board depth = Some (IZR score / 100)) /\
  (forall mate_value : Z,
      engine board depth = Mate mate_value -> (mate_value > 0)%Z ->
      evaluate_position engine board depth = Some 100) /\
  (forall mate_value : Z,
      engine board depth = Mate mate_value -> (mate_value <= 0)%Z ->
      evaluate_position engine board depth = Some (-100)) /\
  (engine board depth = OtherScore <-> evaluate_position engine board depth = None) /\
  (forall reported : PovScore,
      engine board depth = white_score reported ->
      relative reported = Mate 0 ->
      (pov_turn reported = true ->
       evaluate_position engine board depth = Some (-100)) /\
      (pov_turn reported = false ->
       evaluate_position engine board depth = None)).
Proof.
  unfold evaluate_position.
  split; [|split; [|split; [|split]]].
  - intros score ->. reflexivity.
  - intros mate_value -> H.
    replace (mate_value >? 0)%Z with true by (symmetry; apply Z.gtb_lt; lia).
    reflexivity.
  - intros mate_value -> H.
    destruct (mate_value >? 0)%Z eqn:E; [|reflexivity].
    apply Z.gtb_lt in E. lia.
  - split.
    + intros ->. reflexivity.
    + destruct (engine board depth); intros H; try discriminate; reflexivity.
  - intros reported -> Hrel. unfold white_score. rewrite Hrel.
    split; intros ->; reflexivity.
Qed.

Lemma evaluate_position_by_score_kind_witness :
  evaluate_position (fun _ _ => Cp 35) (mkBoard true []) 25 = Some (IZR 35 / 100) /\
  evaluate_position (fun _ _ => Mate 3) (mkBoard true []) 25 = Some 100 /\
  evaluate_position (fun _ _ => Mate (-2)) (mkBoard true []) 25 = Some (-100) /\
  evaluate_position (fun _ _ => white_score (mkPovScore (Mate 0) true))
    (mkBoard true []) 25 = Some (-100) /\
  evaluate_position (fun _ _ => white_score (mkPovScore (Mate 0) false))
    (mkBoard false []) 25 = None.
Proof.
  split.
  { apply (proj1 (evaluate_position_by_score_kind (fun _ _ => Cp 35) (mkBoard true []) 25)).
    reflexivity. }
  split.
  { apply (proj1 (proj2 (evaluate_position_by_score_kind (fun _ _ => Mate 3)
                           (mkBoard true []) 25)) 3%Z); [reflexivity | lia]. }
  split.
  { apply (proj1 (proj2 (proj2
             (evaluate_position_by_score_kind (fun _ _ => Mate (-2)) (mkBoard true []) 25)))
             (-2)%Z); [reflexivity | lia]. }
  split.
  { apply (proj2 (proj2 (proj2 (proj2
             (evaluate_position_by_score_kind
                (fun _ _ => white_score (mkPovScore (Mate 0) true))
                (mkBoard true []) 25)))) (mkPovScore (Mate 0) true));
      reflexivity. }
  apply (proj2 (proj2 (proj2 (proj2
           (evaluate_position_by_score_kind
              (fun _ _ => white_score (mkPovScore (Mate 0) false))
              (mkBoard false []) 25)))) (mkPovScore (Mate 0) false));
    reflexivity.
Defined.

(** ** The move classifier *)

(** C5. With thresholds ordered [0 < inaccuracy < mistake < blunder], a
    change equal to the negated blunder threshold is a blunder, a change
    equal to the negated mistake threshold is a mistake, a change equal to
    the negated inaccuracy threshold is an inaccuracy, and every change
    above the negated inaccuracy threshold gets no annotation. *)
Theorem classify_change_boundaries (thresh_inac thresh_mistake thresh_blunder : R) :
  0 < thresh_inac -> thresh_inac < thresh_mistake -> thresh_mistake < thresh_blunder ->
  classify_change thresh_inac thresh_mistake thresh_blunder (- thresh_blunder)
    = Some Blunder /\
  classify_change thresh_inac thresh_mistake thresh_blunder (- thresh_mistake)
    = Some Mistake /\
  classify_change thresh_inac thresh_mistake thresh_blunder (- thresh_inac)
    = Some Inaccuracy /\
  (forall eval_change : R,
      - thresh_inac < eval_change ->
      classify_change thresh_inac thresh_mistake thresh_blunder eval_change = None).
Proof.
  intros Hi Hm Hb. unfold classify_change. repeat split.
  - replace (Rleb (- thresh_blunder) (- thresh_blunder)) with true
      by (symmetry; apply Rleb_true; lra).
    reflexivity.
  - replace (Rleb (- thresh_mistake) (- thresh_blunder)) with false
      by (symmetry; apply Rleb_false; lra).
    replace (Rleb (- thresh_mistake) (- thresh_mistake)) with true
      by (symmetry; apply Rleb_true; lra).
    reflexivity.
  - replace (Rleb (- thresh_inac) (- thresh_blunder)) with false
      by (symmetry; apply Rleb_false; lra).
    replace (Rleb (- thresh_inac) (- thresh_mistake)) with false
      by (symmetry; apply Rleb_false; lra).
    replace (Rleb (- thresh_inac) (- thresh_inac)) with true
      by (symmetry; apply Rleb_true; lra).
    reflexivity.
  - intros eval_change H.
    replace (Rleb eval_change (- thresh_blunder)) with false
      by (symmetry; apply Rleb_false; lra).
    replace (Rleb eval_change (- thresh_mistake)) with false
      by (symmetry; apply Rleb_false; lra).
    replace (Rleb eval_change (- thresh_inac)) with false
      by (symmetry; apply Rleb_false; lra).
    reflexivity.
Qed.

Lemma classify_change_boundaries_witness :
  classify_change 0.4 0.8 1.8 (- (1.8)) = Some Blunder /\
  classify_change 0.4 0.8 1.8 (- (0.8)) = Some Mistake /\
  classify_change 0.4 0.8 1.8 (- (0.4)) = Some Inaccuracy /\
  (forall eval_change : R,
      - (0.4) < eval_change -> classify_change 0.4 0.8 1.8 eval_change = None).
Proof.
  apply (classify_change_boundaries 0.4 0.8 1.8); lra.
Defined.

(** ** The report never divides by zero *)

Lemma py_div_positive (x : R) (z : Z) :
  (z >? 0)%Z = true -> py_div x (IZR z) = Some (x / IZR z).
Proof.
  intros H. apply Z.gtb_lt in H. apply IZR_lt in H.
  unfold py_div. destruct (Req_dec_T (IZR z) 0); [lra | reflexivity].
Qed.

Lemma error_rate_value (ps : PlayerStats) :
  error_rate ps =
  Some (if (moves ps >? 0)%Z
        then IZR (total_annotations ps) / IZR (moves ps) * 100
        else 0).
Proof.
  unfold error_rate. destruct (moves ps >? 0)%Z eqn:E; [|reflexivity].
  rewrite py_div_positive by assumption. reflexivity.
Qed.

Lemma average_accuracy_value (ps : PlayerStats) :
  average_accuracy ps =
  Some (if (accuracy_count ps >? 0)%Z
        then AverageAccuracyLine (total_accuracy ps / IZR (accuracy_count ps))
        else AverageAccuracyNA).
Proof.
  unfold average_accuracy. destruct (accuracy_count ps >? 0)%Z eqn:E; [|reflexivity].
  rewrite py_div_positive by assumption. reflexivity.
Qed.

Lemma nag_line_defined (ps : PlayerStats) (nag count : Z) :
  exists lines, nag_line ps nag count = Some lines.
Proof.
  unfold nag_line. destruct (count >? 0)%Z; [|eexists; reflexivity].
  destruct (moves ps >? 0)%Z eqn:E.
  - rewrite py_div_positive by assumption. eexists; reflexivity.
  - eexists; reflexivity.
Qed.

Lemma player_section_defined (ps : PlayerStats) :
  exists lines, player_section ps = Some lines.
Proof.
  unfold player_section.
  rewrite average_accuracy_value, error_rate_value.
  destruct (total_annotations ps >? 0)%Z.
  - destruct (nag_line_defined ps 6 (nag6 ps)) as [l6 ->].
    destruct (nag_line_defined ps 2 (nag2 ps)) as [l2 ->].
    destruct (nag_line_defined ps 4 (nag4 ps)) as [l4 ->].
    eexists; reflexivity.
  - eexists; reflexivity.
Qed.

Lemma accuracy_or_zero_defined (ps : PlayerStats) :
  exists a, accuracy_or_zero ps = Some a.
Proof.
  unfold accuracy_or_zero. destruct (accuracy_count ps >? 0)%Z eqn:E.
  - rewrite py_div_positive by assumption. eexists; reflexivity.
  - eexists; reflexivity.
Qed.

Lemma comparison_defined (stats : Stats) :
  exists c, comparison stats = Some c.
Proof.
  unfold comparison.
  destruct (moves (stats_white stats) >? 0)%Z eqn:Ew;
    destruct (moves (stats_black stats) >? 0)%Z eqn:Eb; simpl;
    try (eexists; reflexivity).
  destruct (accuracy_or_zero_defined (stats_white stats)) as [wa ->].
  destruct (accuracy_or_zero_defined (stats_black stats)) as [ba ->].
  rewrite !py_div_positive by assumption.
  eexists; reflexivity.
Qed.

Lemma generate_report_defined (stats : Stats) (annotated_moves : list AnnotatedMove) :
  exists report, generate_report stats annotated_moves = Some report.
Proof.
  unfold generate_report.
  destruct (player_section_defined (stats_white stats)) as [w ->].
  destruct (player_section_defined (stats_black stats)) as [b ->].
  destruct (comparison_defined stats) as [c ->].
  eexists; reflexivity.
Qed.

(** C8. The statistics of a player are finalised without a division by
    zero, whatever the counters: the average accuracy is the accuracy sum
    divided by the accuracy count when that count is positive and the
    marker N/A otherwise; the error rate is the sum of the three severity
    counts divided by the move count, times 100, when the move count is
    positive and 0 otherwise; and neither the section of a player nor the
    report as a whole raises [ZeroDivisionError]. *)
Theorem finalize_never_divides_by_zero :
  (forall ps : PlayerStats,
      average_accuracy ps =
      Some (if (accuracy_count ps >? 0)%Z
            then AverageAccuracyLine (total_accuracy ps / IZR (accuracy_count ps))
            else AverageAccuracyNA)) /\
  (forall ps : PlayerStats,
      error_rate ps =
      Some (if (moves ps >? 0)%Z
            then IZR (nag6 ps + nag2 ps + nag4 ps) / IZR (moves ps) * 100
            else 0)) /\
  (forall ps : PlayerStats, exists lines, player_section ps = Some lines) /\
  (forall (stats : Stats) (annotated_moves : list AnnotatedMove),
      exists report, generate_report stats annotated_moves = Some report).
Proof.
  split; [exact average_accuracy_value|].
  split; [exact error_rate_value|].
  split; [exact player_section_defined | exact generate_report_defined].
Qed.

(** ** The annotation loop, ply by ply *)

Section DriverFacts.

Variable engine : Engine.
Variable depth : Z.
Variables thresh_inac thresh_mistake thresh_blunder : R.

Local Abbreviation step :=
  (annotate_ply engine depth thresh_inac thresh_mistake thresh_blunder).
Local Abbreviation run :=
  (annotate_moves engine depth thresh_inac thresh_mistake thresh_blunder).
Local Abbreviation state :=
  (state_after engine depth thresh_inac thresh_mistake thresh_blunder).

Lemma firstn_succ_nth_error {A : Type} (l : list A) (k : nat) (x : A) :
  nth_error l k = Some x -> firstn (S k) l = firstn k l ++ [x].
Proof.
  revert k. induction l as [|y l IH]; intros [|k] H; simpl in *; try discriminate.
  - now inversion H.
  - f_equal. now apply IH.
Qed.

(** Processing ply [k + 1] takes the state after [k] plies to the state
    after [k + 1] plies. *)
Lemma state_after_succ (game : Game) (k : nat) (move : Move) :
  nth_error (mainline game) k = Some move ->
  state game (S k) = step (state game k) move.
Proof.
  intros H. unfold state_after, annotate_moves.
  rewrite (firstn_succ_nth_error _ _ _ H), fold_left_app. reflexivity.
Qed.

(** The loop over the whole main line is the loop over what follows ply
    [k], started in the state after [k] plies. *)
Lemma annotate_moves_resume (game : Game) (k : nat) :
  run (mainline game) (initial_state game) = run (skipn k (mainline game)) (state game k).
Proof.
  unfold state_after, annotate_moves.
  rewrite <- fold_left_app, firstn_skipn. reflexivity.
Qed.

(** Side to move and move counter after a run of plies. *)
Lemma annotate_moves_turn_move_number (l : list Move) (st : LoopState) :
  turn (ls_board (run l st)) = xorb (turn (ls_board st)) (Nat.odd (List.length l)) /\
  ls_move_number (run l st) =
  (ls_move_number st +
   (Z.of_nat (List.length l) + (if turn (ls_board st) then 0 else 1)) / 2)%Z.
Proof.
  revert st. induction l as [|m l IH]; intros st.
  - simpl. split; [now destruct (turn (ls_board st))|].
    destruct (turn (ls_board st)); simpl;
      Z.to_euclidean_division_equations; lia.
  - change (run (m :: l) st) with (run l (step st m)).
    destruct (IH (step st m)) as [Ht Hn]. rewrite Ht, Hn.
    change (List.length (m :: l)) with (S (List.length l)).
    rewrite Nat.odd_succ, <- Nat.negb_odd.
    change (ls_board (step st m)) with (push (ls_board st) m).
    change (ls_move_number (step st m))
      with (if turn (push (ls_board st) m)
            then (ls_move_number st + 1)%Z else ls_move_number st).
    unfold push; cbn [turn].
    destruct (turn (ls_board st)); cbn [negb xorb].
    + split; [now destruct (Nat.odd (List.length l))|].
      rewrite Nat2Z.inj_succ. Z.to_euclidean_division_equations; lia.
    + split; [now destruct (Nat.odd (List.length l))|].
      rewrite Nat2Z.inj_succ. Z.to_euclidean_division_equations; lia.
Qed.

Lemma state_after_move_number (game : Game) (k : nat) :
  (k <= List.length (mainline game))%nat ->
  ls_move_number (state game k) =
  (1 + (Z.of_nat k + (if turn (game_board game) then 0 else 1)) / 2)%Z.
Proof.
  intros Hk. unfold state_after.
  destruct (annotate_moves_turn_move_number (firstn k (mainline game)) (initial_state game))
    as [_ Hn].
  rewrite Hn. simpl.
  rewrite length_firstn, Nat.min_l by assumption. reflexivity.
Qed.

Lemma state_after_turn (game : Game) (k : nat) :
  (k <= List.length (mainline game))%nat ->
  turn (ls_board (state game k)) = xorb (turn (game_board game)) (Nat.odd k).
Proof.
  intros Hk. unfold state_after.
  destruct (annotate_moves_turn_move_number (firstn k (mainline game)) (initial_state game))
    as [Ht _].
  rewrite Ht. simpl.
  rewrite length_firstn, Nat.min_l by assumption. reflexivity.
Qed.

(** The gate on the move number, in plies. *)
Lemma warmup_window (start_turn : bool) (k : nat) :
  ((1 + (Z.of_nat k + (if start_turn then 0 else 1)) / 2 <=? 2)%Z = true) <->
  (if start_turn then (k < 4)%nat else (k < 3)%nat).
Proof.
  rewrite Z.leb_le.
  destruct start_turn; split; intros H; Z.to_euclidean_division_equations; lia.
Qed.

(** *** Effect of the statistics updates on the counters *)

Lemma nag_count_count_move (stats : Stats) (player p : Player) (a : Annotation) :
  nag_count (player_stats (count_move stats player) p) a =
  nag_count (player_stats stats p) a.
Proof. destruct player, p, a; reflexivity. Qed.

Lemma nag_count_add_accuracy (stats : Stats) (player p : Player) (acc : R)
    (a : Annotation) :
  nag_count (player_stats (add_accuracy stats player acc) p) a =
  nag_count (player_stats stats p) a.
Proof. destruct player, p, a; reflexivity. Qed.

Lemma nag_count_add_nag (stats : Stats) (player : Player) (a : Annotation) :
  nag_count (player_stats (add_nag stats player a) player) a =
  (nag_count (player_stats stats player) a + 1)%Z.
Proof. destruct player, a; reflexivity. Qed.

Lemma count_move_moves (stats : Stats) (player : Player) :
  moves (player_stats (count_move stats player) player) =
  (moves (player_stats stats player) + 1)%Z /\
  total_moves (count_move stats player) = (total_moves stats + 1)%Z /\
  total_accuracy (player_stats (count_move stats player) player) =
  total_accuracy (player_stats stats player) /\
  accuracy_count (player_stats (count_move stats player) player) =
  accuracy_count (player_stats stats player) /\
  (forall p, p <> player ->
     player_stats (count_move stats player) p = player_stats stats p).
Proof.
  destruct player; repeat split; try reflexivity;
    intros [|] Hp; try reflexivity; now elim Hp.
Qed.

(** *** One ply *)

(** The annotation a ply receives, as computed inside [annotate_ply]. *)
Lemma annotate_ply_annotation (st : LoopState) (move : Move) :
  let annotation :=
    ply_annotation thresh_inac thresh_mistake thresh_blunder
      (ls_move_number st) (player_to_move (ls_board st))
      (evaluate_position engine (ls_board st) depth)
      (evaluate_position engine (push (ls_board st) move) depth) in
  match annotation with
  | Some (eval_change, a) =>
      exists entry,
        ls_annotated_moves (step st move) = ls_annotated_moves st ++ [entry] /\
        am_move_number entry = ls_move_number st /\
        am_player entry = player_to_move (ls_board st) /\
        am_move entry = move /\
        am_annotation entry = a /\
        am_eval_change entry = eval_change /\
        nag_count (player_stats (ls_stats (step st move))
                     (player_to_move (ls_board st))) a =
        (nag_count (player_stats (ls_stats st) (player_to_move (ls_board st))) a + 1)%Z
  | None =>
      ls_annotated_moves (step st move) = ls_annotated_moves st /\
      (forall p a,
          nag_count (player_stats (ls_stats (step st move)) p) a =
          nag_count (player_stats (ls_stats st) p) a)
  end.
Proof.
  unfold annotate_ply. cbn zeta.
  destruct (ply_annotation thresh_inac thresh_mistake thresh_blunder
              (ls_move_number st) (player_to_move (ls_board st))
              (evaluate_position engine (ls_board st) depth)
              (evaluate_position engine (push (ls_board st) move) depth))
    as [[eval_change a]|]; cbn [ls_annotated_moves ls_stats].
  - eexists. split; [reflexivity|].
    cbn [am_move_number am_player am_move am_annotation am_eval_change].
    repeat split; try reflexivity.
    rewrite nag_count_add_nag.
    destruct (evaluate_position engine (ls_board st) depth);
      destruct (evaluate_position engine (push (ls_board st) move) depth);
      cbn [win_percent_of];
      rewrite ?nag_count_add_accuracy, nag_count_count_move; reflexivity.
  - split; [reflexivity|]. intros p a.
    destruct (evaluate_position engine (ls_board st) depth);
      destruct (evaluate_position engine (push (ls_board st) move) depth);
      cbn [win_percent_of];
      rewrite ?nag_count_add_accuracy, nag_count_count_move; reflexivity.
Qed.

(** A ply with an evaluation missing: only the move counts change. *)
Lemma annotate_ply_unavailable (st : LoopState) (move : Move) :
  evaluate_position engine (ls_board st) depth = None \/
  evaluate_position engine (push (ls_board st) move) depth = None ->
  step st move =
  {| ls_board := push (ls_board st) move;
     ls_move_number :=
       if turn (push (ls_board st) move)
       then (ls_move_number st + 1)%Z else ls_move_number st;
     ls_stats := count_move (ls_stats st) (player_to_move (ls_board st));
     ls_annotated_moves := ls_annotated_moves st;
     ls_nags := ls_nags st ++ [[]] |}.
Proof.
  intros H. unfold annotate_ply, ply_annotation. cbn zeta.
  destruct H as [H | H]; rewrite H;
    destruct (ls_move_number st >? 2)%Z;
    try destruct (evaluate_position engine (ls_board st) depth);
    reflexivity.
Qed.

(** With the thresholds as given, a change at or below the negated
    inaccuracy threshold always gets one of the three annotations. *)
Lemma classify_change_flags (eval_change : R) :
  eval_change <= - thresh_inac ->
  exists a, classify_change thresh_inac thresh_mistake thresh_blunder eval_change = Some a.
Proof.
  intros H. unfold classify_change.
  destruct (Rleb eval_change (- thresh_blunder)); [eexists; reflexivity|].
  destruct (Rleb eval_change (- thresh_mistake)); [eexists; reflexivity|].
  replace (Rleb eval_change (- thresh_inac)) with true
    by (symmetry; now apply Rleb_true).
  eexists; reflexivity.
Qed.

End DriverFacts.

(** ** Evaluation failures *)

(** C4. When the evaluation before or after a ply is unavailable, the ply
    is counted in the move count of the player who moved and in the total
    move count, the accuracy sum and accuracy count of that player and all
    severity counters stay as they were, the other player's statistics are
    untouched, no annotated move is appended, and the loop goes on over the
    remaining plies from the state so obtained. *)
Theorem unavailable_evaluation_degrades_only_its_ply
    (engine : Engine) (depth : Z) (thresh_inac thresh_mistake thresh_blunder : R)
    (game : Game) (k : nat) (move : Move) :
  nth_error (mainline game) k = Some move ->
  let st := state_after engine depth thresh_inac thresh_mistake thresh_blunder game k in
  let st' := state_after engine depth thresh_inac thresh_mistake thresh_blunder game (S k) in
  let player := player_to_move (ls_board st) in
  evaluate_position engine (ls_board st) depth = None \/
  evaluate_position engine (push (ls_board st) move) depth = None ->
  moves (player_stats (ls_stats st') player)
    = (moves (player_stats (ls_stats st) player) + 1)%Z /\
  total_moves (ls_stats st') = (total_moves (ls_stats st) + 1)%Z /\
  total_accuracy (player_stats (ls_stats st') player)
    = total_accuracy (player_stats (ls_stats st) player) /\
  accuracy_count (player_stats (ls_stats st') player)
    = accuracy_count (player_stats (ls_stats st) player) /\
  (forall a : Annotation,
      nag_count (player_stats (ls_stats st') player) a
      = nag_count (player_stats (ls_stats st) player) a) /\
  (forall p : Player,
      p <> player -> player_stats (ls_stats st') p = player_stats (ls_stats st) p) /\
  ls_annotated_moves st' = ls_annotated_moves st /\
  annotate_game engine depth thresh_inac thresh_mistake thresh_blunder game =
  (let final :=
     annotate_moves engine depth thresh_inac thresh_mistake thresh_blunder
       (skipn (S k) (mainline game)) st' in
   (ls_nags final, ls_stats final, ls_annotated_moves final)).
Proof.
  intros Hmove st st' player Hnone.
  assert (Hst' : st' = annotate_ply engine depth thresh_inac thresh_mistake thresh_blunder
                         st move)
    by (apply state_after_succ; assumption).
  rewrite (annotate_ply_unavailable _ _ _ _ _ _ _ Hnone) in Hst'.
  fold player in Hst'.
  destruct (count_move_moves (ls_stats st) player) as (Hm & Ht & Hacc & Hcnt & Hother).
  assert (Hstats : ls_stats st' = count_move (ls_stats st) player) by (rewrite Hst'; reflexivity).
  rewrite Hstats.
  repeat split; try assumption.
  - intros a. apply nag_count_count_move.
  - rewrite Hst'. reflexivity.
  - unfold annotate_game.
    rewrite (annotate_moves_resume engine depth thresh_inac thresh_mistake thresh_blunder
               game (S k)).
    reflexivity.
Qed.

Lemma unavailable_evaluation_degrades_only_its_ply_witness :
  let st := state_after (scripted_engine degraded_scores) 25 0.4 0.8 1.8 shifted_game 6 in
  let st' := state_after (scripted_engine degraded_scores) 25 0.4 0.8 1.8 shifted_game 7 in
  evaluate_position (scripted_engine degraded_scores) (ls_board st) 25 = Some (10 / 100) /\
  evaluate_position (scripted_engine degraded_scores)
    (push (ls_board st) "Bg5"%string) 25 = None /\
  moves (player_stats (ls_stats st') white)
    = (moves (player_stats (ls_stats st) white) + 1)%Z /\
  ls_annotated_moves st' = ls_annotated_moves st.
Proof.
  intros st st'.
  split; [reflexivity|]. split; [reflexivity|].
  pose proof (unavailable_evaluation_degrades_only_its_ply
                (scripted_engine degraded_scores) 25 0.4 0.8 1.8 shifted_game 6
                "Bg5"%string eq_refl (or_intror eq_refl)) as H.
  cbv zeta in H.
  split; [exact (proj1 H) | exact (proj1 (proj2 (proj2 (proj2 (proj2 (proj2 (proj2 H)))))))].
Defined.

(** ** The warm-up exemption *)

(** C2 as the code has it. The exemption is a gate on the move counter,
    which starts at 1 and advances after each move of Black: before ply
    [k + 1] it is [1 + k / 2] when White moves first and [1 + (k + 1) / 2]
    when Black does.  A ply played while the counter is at most 2 (the
    first four plies when White moves first, the first three otherwise)
    appends no annotated move and changes no severity counter, whatever
    the change of evaluation.  A ply played while the counter exceeds 2,
    with both evaluations defined, is classified: when the change seen by
    the mover is at most the negated inaccuracy threshold it receives an
    annotation, one annotated move carrying that annotation, the change,
    the mover and the move counter is appended, and the mover's counter of
    that annotation grows by one; when the classifier returns nothing,
    the list and the counters are unchanged. *)
Theorem warmup_is_two_full_moves
    (engine : Engine) (depth : Z) (thresh_inac thresh_mistake thresh_blunder : R)
    (game : Game) (k : nat) (move : Move) :
  nth_error (mainline game) k = Some move ->
  let st := state_after engine depth thresh_inac thresh_mistake thresh_blunder game k in
  let st' := state_after engine depth thresh_inac thresh_mistake thresh_blunder game (S k) in
  let player := player_to_move (ls_board st) in
  ls_move_number st
    = (1 + (Z.of_nat k + (if turn (game_board game) then 0 else 1)) / 2)%Z /\
  ((ls_move_number st <= 2)%Z <->
   (if turn (game_board game) then (k < 4)%nat else (k < 3)%nat)) /\
  ((ls_move_number st <= 2)%Z ->
   ls_annotated_moves st' = ls_annotated_moves st /\
   forall p a, nag_count (player_stats (ls_stats st') p) a
               = nag_count (player_stats (ls_stats st) p) a) /\
  (forall eb ea : R,
      (ls_move_number st > 2)%Z ->
      evaluate_position engine (ls_board st) depth = Some eb ->
      evaluate_position engine (push (ls_board st) move) depth = Some ea ->
      let eval_change := eval_change_of player eb ea in
      (eval_change <= - thresh_inac ->
       exists a, classify_change thresh_inac thresh_mistake thresh_blunder eval_change
                 = Some a) /\
      match classify_change thresh_inac thresh_mistake thresh_blunder eval_change with
      | Some a =>
          exists entry,
            ls_annotated_moves st' = ls_annotated_moves st ++ [entry] /\
            am_move_number entry = ls_move_number st /\
            am_player entry = player /\
            am_move entry = move /\
            am_annotation entry = a /\
            am_eval_change entry = eval_change /\
            nag_count (player_stats (ls_stats st') player) a
            = (nag_count (player_stats (ls_stats st) player) a + 1)%Z
      | None =>
          ls_annotated_moves st' = ls_annotated_moves st /\
          forall p a, nag_count (player_stats (ls_stats st') p) a
                      = nag_count (player_stats (ls_stats st) p) a
      end).
Proof.
  intros Hmove st st' player.
  assert (Hk : (k <= List.length (mainline game))%nat).
  { apply Nat.lt_le_incl, nth_error_Some. rewrite Hmove. discriminate. }
  assert (Hn : ls_move_number st
               = (1 + (Z.of_nat k + (if turn (game_board game) then 0 else 1)) / 2)%Z)
    by (apply state_after_move_number; assumption).
  assert (Hst' : st' = annotate_ply engine depth thresh_inac thresh_mistake thresh_blunder
                         st move)
    by (apply state_after_succ; assumption).
  pose proof (annotate_ply_annotation engine depth thresh_inac thresh_mistake
                thresh_blunder st move) as Hann.
  cbv zeta in Hann. rewrite <- Hst' in Hann. fold player in Hann.
  split; [exact Hn|]. split.
  { rewrite Hn, <- Z.leb_le. apply warmup_window. }
  split.
  - intros Hle. unfold ply_annotation in Hann.
    replace (ls_move_number st >? 2)%Z with false in Hann
      by (symmetry; rewrite Z.gtb_ltb; apply Z.ltb_ge; lia).
    exact Hann.
  - intros eb ea Hgt Hb Ha eval_change.
    split; [apply classify_change_flags|].
    unfold ply_annotation in Hann. rewrite Hb, Ha in Hann.
    replace (ls_move_number st >? 2)%Z with true in Hann
      by (symmetry; apply Z.gtb_lt; lia).
    fold eval_change in Hann.
    destruct (classify_change thresh_inac thresh_mistake thresh_blunder eval_change);
      exact Hann.
Qed.

Lemma warmup_is_two_full_moves_witness :
  let st := state_after (scripted_engine shifted_scores) 25 0.4 0.8 1.8 shifted_game 6 in
  let st' := state_after (scripted_engine shifted_scores) 25 0.4 0.8 1.8 shifted_game 7 in
  ls_move_number st = 4%Z /\
  exists a, classify_change 0.4 0.8 1.8 (eval_change_of white (10 / 100) (-100 / 100))
            = Some a.
Proof.
  intros st st'.
  pose proof (warmup_is_two_full_moves
                (scripted_engine shifted_scores) 25 0.4 0.8 1.8 shifted_game 6
                "Bg5"%string eq_refl) as H.
  cbv zeta in H. destruct H as (Hn & _ & _ & Hpast).
  split; [exact Hn|].
  apply (Hpast (10 / 100) (-100 / 100)); [reflexivity | reflexivity | reflexivity |].
  change (-100 / 100 - 10 / 100 <= - (0.4)). lra.
Defined.

(** The window of two plies fails on the four-ply sample game: ply 3 has
    both evaluations defined and a change of -1.1 for White, below the
    negated inaccuracy threshold, and nothing is appended. *)
Lemma two_ply_warmup_fails :
  ~ two_ply_warmup (scripted_engine synthetic_scores) 25 0.4 0.8 1.8 synthetic_game.
Proof.
  intros [_ H].
  destruct (H 2%nat "Qh5"%string (10 / 100) (-100 / 100)) as [entry Hentry].
  - lia.
  - reflexivity.
  - reflexivity.
  - reflexivity.
  - change (-100 / 100 - 10 / 100 <= - (0.4)). lra.
  - change ([] = [] ++ [entry]) in Hentry. discriminate.
Qed.

(** ** The four-ply sample game *)

Lemma synthetic_evaluations :
  map (fun k =>
         evaluate_position (scripted_engine synthetic_scores)
           (ls_board (state_after (scripted_engine synthetic_scores) 25 0.4 0.8 1.8
                        synthetic_game k)) 25)
      [0; 1; 2; 3; 4]%nat
  = [Some 0.0; Some 0.2; Some 0.1; Some (-1.0); Some (-3.0)].
Proof.
  change (map _ _) with
    [Some (0 / 100); Some (20 / 100); Some (10 / 100); Some (-100 / 100); Some (-300 / 100)].
  replace (0 / 100) with 0.0 by lra.
  replace (20 / 100) with 0.2 by lra.
  replace (10 / 100) with 0.1 by lra.
  replace (-100 / 100) with (-1.0) by lra.
  replace (-300 / 100) with (-3.0) by lra.
  reflexivity.
Qed.

(** With the thresholds 0.4, 0.8 and 1.8 the sample game does not yield
    the two entries (ply 3 a mistake, ply 4 a blunder). *)
Lemma synthetic_game_not_two_entries :
  ~ exists m3 m4 : AnnotatedMove,
      snd (annotate_game (scripted_engine synthetic_scores) 25 0.4 0.8 1.8 synthetic_game)
      = [m3; m4] /\
      am_annotation m3 = Mistake /\ am_eval_change m3 = -1.1 /\
      am_annotation m4 = Blunder /\ am_eval_change m4 = -2.0.
Proof.
  intros (m3 & m4 & H & _).
  change ([] = [m3; m4]) in H. discriminate.
Qed.

(** C1 as the code has it. On the four-ply sample game, whose evaluations
    are 0.0, 0.2, 0.1, -1.0 and -3.0, with thresholds 0.4, 0.8 and 1.8,
    [annotate_game] returns no annotated move: the four plies are moves 1
    and 2 of the game and fall under the gate on the move counter.  All
    severity counters are 0, each player has a move count of 2 and an
    accuracy count of 2, and the total move count is 4. *)
Theorem synthetic_game_analysis :
  let result :=
    annotate_game (scripted_engine synthetic_scores) 25 0.4 0.8 1.8 synthetic_game in
  let stats := snd (fst result) in
  snd result = [] /\
  moves (stats_white stats) = 2%Z /\
  moves (stats_black stats) = 2%Z /\
  total_moves stats = 4%Z /\
  total_annotations (stats_white stats) = 0%Z /\
  total_annotations (stats_black stats) = 0%Z /\
  accuracy_count (stats_white stats) = 2%Z /\
  accuracy_count (stats_black stats) = 2%Z /\
  fst (fst result) = [[]; []; []; []].
Proof.
  cbv zeta. repeat split; reflexivity.
Qed.

(** Resolves the comparisons of concrete numbers in a goal. *)
Ltac decide_Rleb :=
  repeat match goal with
    | |- context [Rleb ?x ?y] =>
        first [ replace (Rleb x y) with true by (symmetry; apply Rleb_true; lra)
              | replace (Rleb x y) with false by (symmetry; apply Rleb_false; lra) ]
    end.

(** The same evaluations after four quiet plies, where the gate is open:
    the move of White that takes the evaluation from 0.1 to -1.0 is the
    only one annotated, as a mistake with change -1.1; the following move
    of Black, after which White stands at -3.0, has a change of +2.0 for
    Black and is not annotated. *)
Lemma shifted_game_analysis :
  exists entry : AnnotatedMove,
    snd (annotate_game (scripted_engine shifted_scores) 25 0.4 0.8 1.8 shifted_game)
    = [entry] /\
    am_move_number entry = 4%Z /\
    am_player entry = white /\
    am_move entry = "Bg5"%string /\
    am_annotation entry = Mistake /\
    am_eval_change entry = -1.1 /\
    eval_change_of black (-1.0) (-3.0) = 2.0.
Proof.
  cbv -[Rleb Rltb Rplus Rminus Rmult Rdiv Ropp IZR exp Rinv
        calculate_move_accuracy centipawns_to_win_percent].
  decide_Rleb.
  eexists. split; [reflexivity|].
  cbv -[Rleb Rltb Rplus Rminus Rmult Rdiv Ropp IZR exp Rinv
        calculate_move_accuracy centipawns_to_win_percent].
  repeat split; lra.
Qed.

(** ** The setup phase *)

(** Once the input file, the engine binary and a game are there, [main]
    runs the analysis and returns normally. *)
Lemma main_runs_analysis (env : Env) (args : Args) (game : Game) :
  input_exists env = true -> engine_exists env = true -> read_game env = Some game ->
  exists report,
    main env args =
    Completed
      (annotate_game (env_engine env) (args_depth args)
         (args_inaccuracy args) (args_mistake args) (args_blunder args) game)
      report.
Proof.
  intros Hi He Hg. unfold main. rewrite Hi, He, Hg. cbn [negb].
  destruct (generate_report_defined
              (snd (fst (annotate_game (env_engine env) (args_depth args)
                           (args_inaccuracy args) (args_mistake args)
                           (args_blunder args) game)))
              (snd (annotate_game (env_engine env) (args_depth args)
                      (args_inaccuracy args) (args_mistake args)
                      (args_blunder args) game))) as [report Hr].
  exists report. rewrite Hr. reflexivity.
Qed.

(** Thresholds in the reverse order are not rejected: the analysis of the
    sample game runs to its end. *)
Lemma unordered_thresholds_not_rejected :
  ~ rejects_unordered_thresholds (sample_env synthetic_game synthetic_scores) reversed_args.
Proof.
  intros H. destruct H as (status & diagnostic & Hexit).
  - unfold thresholds_ordered, reversed_args; cbn [args_inaccuracy args_mistake args_blunder].
    intros (_ & H1 & _). lra.
  - destruct (main_runs_analysis (sample_env synthetic_game synthetic_scores) reversed_args
                synthetic_game eq_refl eq_refl eq_refl) as [report Hrun].
    rewrite Hrun in Hexit. discriminate.
Qed.

(** C3 as the code has it. Thresholds that violate
    [0 < inaccuracy < mistake < blunder] are not rejected: [main] performs
    no check of them.  Once the input file and the engine binary are
    there, the engine has started and a game has been read, it runs
    [annotate_game] with exactly the three threshold values of the command
    line, whatever their signs and order, and returns normally. *)
Theorem setup_does_not_check_thresholds (env : Env) (args : Args) (game : Game) :
  input_exists env = true -> engine_exists env = true ->
  read_game env = Some game ->
  exists report,
    main env args =
    Completed
      (annotate_game (env_engine env) (args_depth args)
         (args_inaccuracy args) (args_mistake args) (args_blunder args) game)
      report.
Proof.
  apply main_runs_analysis.
Qed.

Lemma setup_does_not_check_thresholds_witness :
  ~ thresholds_ordered 1.8 0.8 0.4 /\
  exists report,
    main (sample_env synthetic_game synthetic_scores) reversed_args =
    Completed
      (annotate_game (scripted_engine synthetic_scores) DEFAULT_DEPTH 1.8 0.8 0.4
         synthetic_game)
      report.
Proof.
  split.
  - unfold thresholds_ordered. lra.
  - apply (setup_does_not_check_thresholds
             (sample_env synthetic_game synthetic_scores) reversed_args
             synthetic_game); reflexivity.
Defined.

(** A game that was read but has no move is not rejected. *)
Lemma game_without_moves_not_rejected :
  ~ rejects_game_without_moves (sample_env empty_game []) default_args.
Proof.
  intros H.
  destruct (H empty_game eq_refl eq_refl) as (status & diagnostic & Hexit).
  destruct (main_runs_analysis (sample_env empty_game []) default_args
              empty_game eq_refl eq_refl eq_refl) as [report Hrun].
  rewrite Hrun in Hexit. discriminate.
Qed.

(** C9 as the code has it. With the input file and the engine binary
    present, [main] aborts with status 1 before the loop only when no game
    can be read from the input.  A game that was read and has no move is
    analysed normally: the loop body never runs, the statistics are all
    zero, the list of annotated moves is empty, and the report states no
    errors and an average accuracy of N/A for both players. *)
Theorem game_without_moves_completes (env : Env) (args : Args) :
  input_exists env = true -> engine_exists env = true ->
  (read_game env = None -> main env args = Exit 1 CouldNotReadGame) /\
  (forall game : Game,
      read_game env = Some game -> mainline game = [] ->
      main env args = Completed ([], initial_stats, []) empty_report).
Proof.
  intros Hi He. unfold main. rewrite Hi, He. cbn [negb]. split.
  - intros ->. reflexivity.
  - intros game -> Hempty.
    unfold annotate_game, annotate_moves. rewrite Hempty. reflexivity.
Qed.

Lemma game_without_moves_completes_witness :
  main (sample_env empty_game []) default_args
  = Completed ([], initial_stats, []) empty_report.
Proof.
  apply (proj2 (game_without_moves_completes (sample_env empty_game []) default_args
                  eq_refl eq_refl) empty_game); reflexivity.
Defined.

(** * Further properties of the code *)

(** ** Accuracy against the loss *)

Lemma calculate_move_accuracy_no_loss (wb wa : R) :
  wb - wa <= 0 -> calculate_move_accuracy wb wa = max_accuracy.
Proof.
  intros H. rewrite calculate_move_accuracy_unfold.
  rewrite (Rmax_left 0 (wb - wa)) by lra.
  rewrite raw_accuracy_0. unfold max_accuracy.
  rewrite Rmin_right by lra. rewrite Rmax_right by lra. reflexivity.
Qed.

Lemma calculate_move_accuracy_positive_loss (wb wa : R) :
  0 < wb - wa -> calculate_move_accuracy wb wa < max_accuracy.
Proof.
  intros H. rewrite calculate_move_accuracy_unfold.
  rewrite (Rmax_right 0 (wb - wa)) by lra.
  assert (Hraw : raw_accuracy (wb - wa) < max_accuracy).
  { unfold raw_accuracy, max_accuracy.
    assert (exp (-0.04354 * (wb - wa)) < exp 0) by (apply exp_increasing; lra).
    rewrite exp_0 in *. lra. }
  unfold max_accuracy in *.
  apply Rmax_case_strong; intros; [lra|].
  apply Rmin_case_strong; intros; lra.
Qed.

(** ** The classifier on the whole line *)

(** Splits a goal or the hypotheses along one threshold test. *)
Ltac split_Rleb x y :=
  let E := fresh "E" in
  destruct (Rleb x y) eqn:E; [apply Rleb_true in E | apply Rleb_false in E].

Lemma classify_change_cases (ti tm tb c : R) :
  (c <= - tb /\ classify_change ti tm tb c = Some Blunder) \/
  (- tb < c /\ c <= - tm /\ classify_change ti tm tb c = Some Mistake) \/
  (- tb < c /\ - tm < c /\ c <= - ti /\ classify_change ti tm tb c = Some Inaccuracy) \/
  (- tb < c /\ - tm < c /\ - ti < c /\ classify_change ti tm tb c = None).
Proof.
  unfold classify_change.
  split_Rleb c (- tb); [left; split; [assumption | reflexivity]|].
  split_Rleb c (- tm); [right; left; repeat split; assumption|].
  split_Rleb c (- ti); [right; right; left; repeat split; assumption|].
  right; right; right; repeat split; assumption.
Qed.

(** With ordered thresholds the classifier cuts the line into four
    intervals: blunder up to the negated blunder threshold, mistake from
    there up to the negated mistake threshold, inaccuracy from there up to
    the negated inaccuracy threshold, and no annotation above. *)
Theorem classify_change_intervals (ti tm tb c : R) :
  0 < ti -> ti < tm -> tm < tb ->
  (classify_change ti tm tb c = Some Blunder <-> c <= - tb) /\
  (classify_change ti tm tb c = Some Mistake <-> - tb < c <= - tm) /\
  (classify_change ti tm tb c = Some Inaccuracy <-> - tm < c <= - ti) /\
  (classify_change ti tm tb c = None <-> - ti < c).
Proof.
  intros Hi Hm Hb.
  destruct (classify_change_cases ti tm tb c)
    as [[H1 ->] | [(H1 & H2 & ->) | [(H1 & H2 & H3 & ->) | (H1 & H2 & H3 & ->)]]];
    repeat split; intros; try discriminate; try lra; try reflexivity.
Qed.

Lemma classify_change_intervals_witness :
  classify_change 0.4 0.8 1.8 (-1.1) = Some Mistake.
Proof.
  apply (proj1 (proj2 (classify_change_intervals 0.4 0.8 1.8 (-1.1)
                         ltac:(lra) ltac:(lra) ltac:(lra)))).
  lra.
Defined.



(** ** Invariants of the annotation loop *)

Section DriverInvariants.

Variable engine : Engine.
Variable depth : Z.
Variables thresh_inac thresh_mistake thresh_blunder : R.

Local Abbreviation step :=
  (annotate_ply engine depth thresh_inac thresh_mistake thresh_blunder).
Local Abbreviation run :=
  (annotate_moves engine depth thresh_inac thresh_mistake thresh_blunder).
Local Abbreviation classify :=
  (classify_change thresh_inac thresh_mistake thresh_blunder).
Local Abbreviation entries_inv :=
  (entries_invariant thresh_inac thresh_mistake thresh_blunder).

(** The three ways an iteration can end: an evaluation is missing; both
    are there but the ply gets no annotation; the ply is annotated. *)
Lemma annotate_ply_cases (st : LoopState) (move : Move) :
  let p := player_to_move (ls_board st) in
  (ls_stats (step st move) = count_move (ls_stats st) p /\
   ls_annotated_moves (step st move) = ls_annotated_moves st /\
   ls_nags (step st move) = ls_nags st ++ [[]]) \/
  (exists eb ea wb wa : R,
      win_percent_of p (Some eb) = Some wb /\
      win_percent_of p (Some ea) = Some wa /\
      ls_stats (step st move)
      = add_accuracy (count_move (ls_stats st) p) p (calculate_move_accuracy wb wa) /\
      ls_annotated_moves (step st move) = ls_annotated_moves st /\
      ls_nags (step st move) = ls_nags st ++ [[]]) \/
  (exists (eb ea wb wa : R) (a : Annotation),
      (ls_move_number st > 2)%Z /\
      classify (eval_change_of p eb ea) = Some a /\
      win_percent_of p (Some eb) = Some wb /\
      win_percent_of p (Some ea) = Some wa /\
      ls_stats (step st move)
      = add_nag (add_accuracy (count_move (ls_stats st) p) p
                   (calculate_move_accuracy wb wa)) p a /\
      ls_annotated_moves (step st move)
      = ls_annotated_moves st ++
        [ {| am_move_number := ls_move_number st;
             am_player := p;
             am_move := move;
             am_annotation := a;
             am_eval_change := eval_change_of p eb ea;
             am_move_accuracy := Some (calculate_move_accuracy wb wa) |} ] /\
      ls_nags (step st move) = ls_nags st ++ [[ANNOTATIONS a]]).
Proof.
  cbv zeta. unfold annotate_ply, ply_annotation. cbn zeta.
  destruct (evaluate_position engine (ls_board st) depth) as [eb|];
    destruct (evaluate_position engine (push (ls_board st) move) depth) as [ea|];
    cbn [win_percent_of ls_stats ls_annotated_moves ls_nags];
    try (left; destruct (ls_move_number st >? 2)%Z; repeat split; reflexivity).
  destruct (ls_move_number st >? 2)%Z eqn:Hgate.
  - destruct (classify (eval_change_of (player_to_move (ls_board st)) eb ea)) as [a|] eqn:Hc.
    + right; right. exists eb, ea. eexists. eexists. exists a.
      split; [apply Z.gtb_lt in Hgate; lia|].
      split; [exact Hc|].
      repeat split; reflexivity.
    + right; left. exists eb, ea. eexists. eexists. repeat split; reflexivity.
  - right; left. exists eb, ea. eexists. eexists. repeat split; reflexivity.
Qed.

Lemma annotate_moves_invariant (P : LoopState -> Prop) :
  (forall st move, P st -> P (step st move)) ->
  forall remaining st, P st -> P (run remaining st).
Proof.
  intros Hstep remaining. induction remaining as [|m l IH]; intros st H.
  - exact H.
  - apply IH, Hstep, H.
Qed.

Lemma calculate_move_accuracy_bounds (wb wa : R) :
  0 <= calculate_move_accuracy wb wa <= max_accuracy.
Proof.
  split.
  - rewrite calculate_move_accuracy_unfold. apply Rmax_l.
  - destruct (Rle_dec (wb - wa) 0) as [H | H].
    + rewrite calculate_move_accuracy_no_loss by assumption. lra.
    + left. apply calculate_move_accuracy_positive_loss. lra.
Qed.

(** *** The counters *)

Lemma count_move_consistent (stats : Stats) (p : Player) :
  stats_consistent stats -> stats_consistent (count_move stats p).
Proof.
  unfold stats_consistent, player_stats_consistent, total_annotations.
  intros (Hw & Hb & Ht).
  destruct p; cbn; repeat split; try tauto; lia.
Qed.

Lemma add_accuracy_consistent (stats : Stats) (p : Player) (acc : R) :
  0 <= acc <= max_accuracy ->
  stats_consistent stats ->
  (accuracy_count (player_stats stats p) < moves (player_stats stats p))%Z ->
  stats_consistent (add_accuracy stats p acc).
Proof.
  unfold stats_consistent, player_stats_consistent, total_annotations.
  intros Hacc (Hw & Hb & Ht) Hlt.
  destruct p; cbn in *; rewrite ?plus_IZR; repeat split; try tauto; try lia; try nra.
Qed.

Lemma add_nag_consistent (stats : Stats) (p : Player) (a : Annotation) :
  stats_consistent stats ->
  (total_annotations (player_stats stats p) < accuracy_count (player_stats stats p))%Z ->
  stats_consistent (add_nag stats p a).
Proof.
  unfold stats_consistent, player_stats_consistent, total_annotations.
  intros (Hw & Hb & Ht) Hlt.
  destruct p, a; cbn in *; repeat split; try tauto; lia.
Qed.

Lemma count_move_gap (stats : Stats) (p : Player) :
  stats_consistent stats ->
  (accuracy_count (player_stats (count_move stats p) p)
   < moves (player_stats (count_move stats p) p))%Z.
Proof.
  unfold stats_consistent, player_stats_consistent.
  intros (Hw & Hb & Ht). destruct p; cbn; lia.
Qed.

Lemma add_accuracy_gap (stats : Stats) (p : Player) (acc : R) :
  stats_consistent stats ->
  (total_annotations (player_stats (add_accuracy stats p acc) p)
   < accuracy_count (player_stats (add_accuracy stats p acc) p))%Z.
Proof.
  unfold stats_consistent, player_stats_consistent, total_annotations.
  intros (Hw & Hb & Ht). destruct p; cbn; lia.
Qed.

Lemma annotate_ply_stats_consistent (st : LoopState) (move : Move) :
  stats_consistent (ls_stats st) -> stats_consistent (ls_stats (step st move)).
Proof.
  intros H.
  pose proof (count_move_consistent _ (player_to_move (ls_board st)) H) as Hc.
  pose proof (count_move_gap _ (player_to_move (ls_board st)) H) as Hg.
  destruct (annotate_ply_cases st move)
    as [(-> & _) | [(eb & ea & wb & wa & _ & _ & -> & _)
                   | (eb & ea & wb & wa & a & _ & _ & _ & _ & -> & _)]].
  - exact Hc.
  - apply add_accuracy_consistent; auto using calculate_move_accuracy_bounds.
  - apply add_nag_consistent.
    + apply add_accuracy_consistent; auto using calculate_move_accuracy_bounds.
    + apply add_accuracy_gap. exact Hc.
Qed.

Lemma initial_stats_consistent : stats_consistent initial_stats.
Proof.
  unfold stats_consistent, player_stats_consistent, total_annotations, max_accuracy.
  cbn. repeat split; try lia; lra.
Qed.

(** *** The annotated moves *)

Lemma annotate_ply_move_number_le (st : LoopState) (move : Move) :
  (ls_move_number st <= ls_move_number (step st move))%Z.
Proof.
  change (ls_move_number (step st move))
    with (if turn (push (ls_board st) move)
          then (ls_move_number st + 1)%Z else ls_move_number st).
  destruct (turn (push (ls_board st) move)); lia.
Qed.

Lemma Sorted_snoc (l : list Z) (y : Z) :
  Sorted Z.le l -> Forall (fun x => (x <= y)%Z) l -> Sorted Z.le (l ++ [y]).
Proof.
  induction l as [|x l IH]; intros Hs Hf; simpl.
  - repeat constructor.
  - inversion Hs as [|? ? Hs' Hhd]; subst. inversion Hf as [|? ? Hx Hf']; subst.
    constructor; [apply IH; assumption|].
    destruct l as [|x' l]; simpl.
    + constructor. exact Hx.
    + constructor. inversion Hhd; subst. assumption.
Qed.

Lemma annotate_ply_entries_invariant (st : LoopState) (move : Move) :
  entries_inv st -> entries_inv (step st move).
Proof.
  intros (Hc & Hle & Hs).
  pose proof (annotate_ply_move_number_le st move) as Hmn.
  assert (Hle' : Forall (fun x => (x <= ls_move_number (step st move))%Z)
                   (map am_move_number (ls_annotated_moves st))).
  { eapply Forall_impl; [|exact Hle]. cbn beta. intros x Hx. lia. }
  unfold entries_invariant.
  destruct (annotate_ply_cases st move)
    as [(_ & -> & _) | [(eb & ea & wb & wa & _ & _ & _ & -> & _)
                       | (eb & ea & wb & wa & a & Hgate & Hcl & Hwb & Hwa & _ & -> & _)]].
  - repeat split; assumption.
  - repeat split; assumption.
  - rewrite map_app. cbn [map am_move_number].
    split; [|split].
    + apply Forall_app. split; [exact Hc|].
      constructor; [|constructor].
      unfold entry_consistent.
      cbn [am_move_number am_eval_change am_annotation am_player am_move_accuracy].
      split; [exact Hgate|]. split; [exact Hcl|].
      exists eb, ea, wb, wa. repeat split; assumption.
    + apply Forall_app. split; [exact Hle'|].
      constructor; [exact Hmn | constructor].
    + apply Sorted_snoc; assumption.
Qed.

(** *** The counters against the list *)

Lemma count_annotated_snoc (q : Player) (b : Annotation) (l : list AnnotatedMove)
    (entry : AnnotatedMove) :
  count_annotated q b (l ++ [entry]) =
  (count_annotated q b l +
   if Player_eqb (am_player entry) q && Annotation_eqb (am_annotation entry) b
   then 1 else 0)%Z.
Proof.
  unfold count_annotated. rewrite filter_app, length_app, Nat2Z.inj_add.
  cbn [filter].
  destruct (Player_eqb (am_player entry) q && Annotation_eqb (am_annotation entry) b);
    reflexivity.
Qed.

Lemma nag_count_add_nag_any (stats : Stats) (p q : Player) (a b : Annotation) :
  nag_count (player_stats (add_nag stats p a) q) b =
  (nag_count (player_stats stats q) b +
   if Player_eqb p q && Annotation_eqb a b then 1 else 0)%Z.
Proof. destruct p, q, a, b; cbn; lia. Qed.

Lemma annotate_ply_counters_invariant (st : LoopState) (move : Move) :
  counters_invariant st -> counters_invariant (step st move).
Proof.
  intros H q b.
  destruct (annotate_ply_cases st move)
    as [(-> & -> & _) | [(eb & ea & wb & wa & _ & _ & -> & -> & _)
                        | (eb & ea & wb & wa & a & _ & _ & _ & _ & -> & -> & _)]].
  - rewrite nag_count_count_move. apply H.
  - rewrite nag_count_add_accuracy, nag_count_count_move. apply H.
  - rewrite count_annotated_snoc, nag_count_add_nag_any,
      nag_count_add_accuracy, nag_count_count_move.
    cbn [am_player am_annotation]. rewrite H. reflexivity.
Qed.

(** *** The NAG sets *)

Lemma annotate_ply_nags_invariant (st : LoopState) (move : Move) :
  nags_invariant st -> nags_invariant (step st move).
Proof.
  intros (Hok & Hlen). unfold nags_invariant.
  destruct (annotate_ply_cases st move)
    as [(_ & -> & ->) | [(eb & ea & wb & wa & _ & _ & _ & -> & ->)
                        | (eb & ea & wb & wa & a & _ & _ & _ & _ & _ & -> & ->)]];
    rewrite filter_app, !length_app; cbn [filter List.length Nat.eqb negb].
  - split; [|lia].
    apply Forall_app; split; [exact Hok|]. repeat constructor.
  - split; [|lia].
    apply Forall_app; split; [exact Hok|]. repeat constructor.
  - split; [|lia].
    apply Forall_app; split; [exact Hok|].
    constructor; [|constructor].
    destruct a; unfold nag_set_ok; cbn; auto.
Qed.

Lemma annotate_moves_nags_length (remaining : list Move) (st : LoopState) :
  List.length (ls_nags (run remaining st))
  = (List.length (ls_nags st) + List.length remaining)%nat.
Proof.
  revert st. induction remaining as [|m l IH]; intros st.
  - cbn. lia.
  - change (run (m :: l) st) with (run l (step st m)). rewrite IH.
    unfold annotate_ply. cbn [ls_nags].
    rewrite length_app. cbn [List.length]. lia.
Qed.

(** *** The move counts *)

Lemma annotate_ply_moves (st : LoopState) (move : Move) (q : Player) :
  moves (player_stats (ls_stats (step st move)) q)
  = (moves (player_stats (ls_stats st) q)
     + if Player_eqb (player_to_move (ls_board st)) q then 1 else 0)%Z /\
  total_moves (ls_stats (step st move)) = (total_moves (ls_stats st) + 1)%Z.
Proof.
  destruct (annotate_ply_cases st move)
    as [(-> & _) | [(eb & ea & wb & wa & _ & _ & -> & _)
                   | (eb & ea & wb & wa & a & _ & _ & _ & _ & -> & _)]];
    destruct (player_to_move (ls_board st)), q; try destruct a; cbn; split; lia.
Qed.

Lemma annotate_moves_moves (remaining : list Move) (st : LoopState) :
  let n := Z.of_nat (List.length remaining) in
  moves (stats_white (ls_stats (run remaining st)))
  = (moves (stats_white (ls_stats st))
     + if turn (ls_board st) then (n + 1) / 2 else n / 2)%Z /\
  moves (stats_black (ls_stats (run remaining st)))
  = (moves (stats_black (ls_stats st))
     + if turn (ls_board st) then n / 2 else (n + 1) / 2)%Z /\
  total_moves (ls_stats (run remaining st)) = (total_moves (ls_stats st) + n)%Z.
Proof.
  revert st. induction remaining as [|m l IH]; intros st; cbv zeta.
  - cbn [List.length run fold_left annotate_moves]. unfold annotate_moves. cbn [fold_left].
    change (Z.of_nat 0) with 0%Z.
    destruct (turn (ls_board st)); repeat split;
      Z.to_euclidean_division_equations; lia.
  - change (run (m :: l) st) with (run l (step st m)).
    destruct (IH (step st m)) as (Hw & Hb & Ht). cbv zeta in Hw, Hb, Ht.
    rewrite Hw, Hb, Ht.
    destruct (annotate_ply_moves st m white) as [Mw Mt].
    destruct (annotate_ply_moves st m black) as [Mb _].
    change (stats_white (ls_stats (step st m)))
      with (player_stats (ls_stats (step st m)) white).
    change (stats_black (ls_stats (step st m)))
      with (player_stats (ls_stats (step st m)) black).
    rewrite Mw, Mb, Mt.
    change (ls_board (step st m)) with (push (ls_board st) m).
    unfold push, player_to_move; cbn [turn player_stats].
    change (List.length (m :: l)) with (S (List.length l)).
    rewrite Nat2Z.inj_succ.
    destruct (turn (ls_board st)); cbn [negb Player_eqb]; repeat split;
      Z.to_euclidean_division_equations; lia.
Qed.

End DriverInvariants.

(** ** What [annotate_game] returns *)

(** The move counts depend on the length of the main line only: the total
    is the number of plies, the two players share it, and the player who
    moves first has the extra move of a main line of odd length. *)
Theorem annotate_game_move_counts
    (engine : Engine) (depth : Z) (thresh_inac thresh_mistake thresh_blunder : R)
    (game : Game) :
  let stats :=
    snd (fst (annotate_game engine depth thresh_inac thresh_mistake thresh_blunder game)) in
  let n := Z.of_nat (List.length (mainline game)) in
  total_moves stats = n /\
  (moves (stats_white stats) + moves (stats_black stats) = n)%Z /\
  moves (stats_white stats)
  = (if turn (game_board game) then (n + 1) / 2 else n / 2)%Z /\
  moves (stats_black stats)
  = (if turn (game_board game) then n / 2 else (n + 1) / 2)%Z.
Proof.
  cbv zeta. unfold annotate_game. cbn [fst snd].
  destruct (annotate_moves_moves engine depth thresh_inac thresh_mistake thresh_blunder
              (mainline game) (initial_state game)) as (Hw & Hb & Ht).
  cbv zeta in Hw, Hb, Ht. rewrite Hw, Hb, Ht.
  cbn [initial_state ls_stats ls_board initial_stats stats_white stats_black
       initial_player_stats moves total_moves].
  destruct (turn (game_board game)); repeat split;
    Z.to_euclidean_division_equations; lia.
Qed.

(** The counters of each player are ordered: none is negative, the
    annotated moves are at most as many as the moves with an accuracy,
    these are at most as many as the moves, and the accuracy sum is not
    negative. *)
Theorem annotate_game_counters_ordered
    (engine : Engine) (depth : Z) (thresh_inac thresh_mistake thresh_blunder : R)
    (game : Game) (player : Player) :
  let ps :=
    player_stats
      (snd (fst (annotate_game engine depth thresh_inac thresh_mistake thresh_blunder game)))
      player in
  (0 <= nag6 ps)%Z /\ (0 <= nag2 ps)%Z /\ (0 <= nag4 ps)%Z /\
  (nag6 ps + nag2 ps + nag4 ps <= accuracy_count ps)%Z /\
  (accuracy_count ps <= moves ps)%Z /\
  0 <= total_accuracy ps.
Proof.
  cbv zeta. unfold annotate_game. cbn [fst snd].
  assert (H : stats_consistent
                (ls_stats (annotate_moves engine depth thresh_inac thresh_mistake
                             thresh_blunder (mainline game) (initial_state game)))).
  { apply (annotate_moves_invariant engine depth thresh_inac thresh_mistake thresh_blunder
             (fun st => stats_consistent (ls_stats st))).
    - apply annotate_ply_stats_consistent.
    - exact initial_stats_consistent. }
  destruct H as (Hw & Hb & _).
  destruct player; [destruct Hw as (? & ? & ? & ? & ? & ? & _)
                   | destruct Hb as (? & ? & ? & ? & ? & ? & _)];
    repeat split; assumption.
Qed.

Lemma length_by_class (l : list AnnotatedMove) :
  Z.of_nat (List.length l)
  = (count_annotated white Inaccuracy l + count_annotated white Mistake l
     + count_annotated white Blunder l
     + (count_annotated black Inaccuracy l + count_annotated black Mistake l
        + count_annotated black Blunder l))%Z.
Proof.
  induction l as [|entry l IH].
  - reflexivity.
  - change (entry :: l) with ([entry] ++ l).
    unfold count_annotated in *. rewrite !filter_app, !length_app, !Nat2Z.inj_add.
    cbn [filter].
    destruct (am_player entry), (am_annotation entry);
      cbn [Player_eqb Annotation_eqb andb List.length app]; lia.
Qed.

(** The severity counters count the list: for each player and symbol the
    counter equals the number of entries of [annotated_moves] with that
    player and symbol, so the list is as long as the six counters add up
    to. *)
Theorem annotate_game_counters_match_list
    (engine : Engine) (depth : Z) (thresh_inac thresh_mistake thresh_blunder : R)
    (game : Game) :
  let result := annotate_game engine depth thresh_inac thresh_mistake thresh_blunder game in
  let stats := snd (fst result) in
  (forall (player : Player) (a : Annotation),
      nag_count (player_stats stats player) a = count_annotated player a (snd result)) /\
  Z.of_nat (List.length (snd result))
  = (total_annotations (stats_white stats) + total_annotations (stats_black stats))%Z.
Proof.
  cbv zeta. unfold annotate_game. cbn [fst snd].
  assert (H : counters_invariant
                (annotate_moves engine depth thresh_inac thresh_mistake
                   thresh_blunder (mainline game) (initial_state game))).
  { apply (annotate_moves_invariant engine depth thresh_inac thresh_mistake thresh_blunder
             counters_invariant).
    - apply annotate_ply_counters_invariant.
    - intros q b. destruct q, b; reflexivity. }
  split.
  - intros player a. symmetry. apply H.
  - rewrite length_by_class, !H. unfold total_annotations. cbn [player_stats nag_count].
    reflexivity.
Qed.

Lemma annotate_game_entries_invariant
    (engine : Engine) (depth : Z) (thresh_inac thresh_mistake thresh_blunder : R)
    (game : Game) :
  entries_invariant thresh_inac thresh_mistake thresh_blunder
    (annotate_moves engine depth thresh_inac thresh_mistake thresh_blunder
       (mainline game) (initial_state game)).
Proof.
  apply (annotate_moves_invariant engine depth thresh_inac thresh_mistake thresh_blunder
           (entries_invariant thresh_inac thresh_mistake thresh_blunder)).
  - apply annotate_ply_entries_invariant.
  - unfold entries_invariant. cbn. repeat split; constructor.
Qed.

(** Every entry of [annotated_moves] belongs to a ply past the gate, has
    the symbol the classifier gives its change, and carries an accuracy
    (never [None]) between 0 and the largest accuracy.  With three
    positive thresholds every entry is a loss: its change is negative. *)
Theorem annotated_moves_are_losses
    (engine : Engine) (depth : Z) (thresh_inac thresh_mistake thresh_blunder : R)
    (game : Game) :
  let annotated_moves :=
    snd (annotate_game engine depth thresh_inac thresh_mistake thresh_blunder game) in
  Forall (fun entry =>
            (am_move_number entry > 2)%Z /\
            classify_change thresh_inac thresh_mistake thresh_blunder
              (am_eval_change entry) = Some (am_annotation entry) /\
            exists acc, am_move_accuracy entry = Some acc /\ 0 <= acc <= max_accuracy)
         annotated_moves /\
  (0 < thresh_inac -> 0 < thresh_mistake -> 0 < thresh_blunder ->
   Forall (fun entry => am_eval_change entry < 0) annotated_moves).
Proof.
  cbv zeta. unfold annotate_game. cbn [fst snd].
  destruct (annotate_game_entries_invariant engine depth thresh_inac thresh_mistake
              thresh_blunder game) as (Hc & _ & _).
  split.
  - eapply Forall_impl; [|exact Hc]. cbn beta.
    intros entry (Hgate & Hcl & eb & ea & wb & wa & _ & _ & _ & Hacc).
    split; [exact Hgate|]. split; [exact Hcl|].
    eexists. split; [exact Hacc|]. apply calculate_move_accuracy_bounds.
  - intros Hi Hm Hb.
    eapply Forall_impl; [|exact Hc]. cbn beta.
    intros entry (Hgate & Hcl & _).
    destruct (classify_change_cases thresh_inac thresh_mistake thresh_blunder
                (am_eval_change entry))
      as [[H1 E] | [(H1 & H2 & E) | [(H1 & H2 & H3 & E) | (H1 & H2 & H3 & E)]]];
      rewrite E in Hcl; try discriminate; lra.
Qed.

Lemma annotated_moves_are_losses_witness :
  Forall (fun entry => am_eval_change entry < 0)
    (snd (annotate_game (scripted_engine shifted_scores) 25 0.4 0.8 1.8 shifted_game)).
Proof.
  eapply Forall_impl;
    [| apply (proj2 (annotated_moves_are_losses
                       (scripted_engine shifted_scores) 25 0.4 0.8 1.8 shifted_game));
       lra].
  cbn beta. intros entry H. exact H.
Defined.

(** The entries of [annotated_moves] are in the order of the game: their
    move numbers never decrease along the list. *)
Theorem annotated_moves_in_game_order
    (engine : Engine) (depth : Z) (thresh_inac thresh_mistake thresh_blunder : R)
    (game : Game) :
  Sorted Z.le
    (map am_move_number
       (snd (annotate_game engine depth thresh_inac thresh_mistake thresh_blunder game))).
Proof.
  unfold annotate_game. cbn [fst snd].
  destruct (annotate_game_entries_invariant engine depth thresh_inac thresh_mistake
              thresh_blunder game) as (_ & _ & Hs).
  exact Hs.
Qed.

(** The loop leaves one NAG set per ply of the main line; each is empty or
    holds a single NAG among 6, 2 and 4; and the nodes that carry a NAG
    are as many as the entries of [annotated_moves]. *)
Theorem annotate_game_nag_sets
    (engine : Engine) (depth : Z) (thresh_inac thresh_mistake thresh_blunder : R)
    (game : Game) :
  let result := annotate_game engine depth thresh_inac thresh_mistake thresh_blunder game in
  let nag_sets := fst (fst result) in
  List.length nag_sets = List.length (mainline game) /\
  Forall nag_set_ok nag_sets /\
  List.length (filter (fun nags => negb (Nat.eqb (List.length nags) 0)) nag_sets)
  = List.length (snd result).
Proof.
  cbv zeta. unfold annotate_game. cbn [fst snd].
  split.
  - rewrite annotate_moves_nags_length. reflexivity.
  - apply (annotate_moves_invariant engine depth thresh_inac thresh_mistake thresh_blunder
             nags_invariant).
    + apply annotate_ply_nags_invariant.
    + split; [constructor | reflexivity].
Qed.

(** ** The report on the statistics of a game *)

Lemma ratio_in_range (a b : Z) :
  (0 <= a <= b)%Z -> (b >? 0)%Z = true -> 0 <= IZR a / IZR b * 100 <= 100.
Proof.
  intros [Ha Hab] Hb. apply Z.gtb_lt in Hb.
  apply IZR_le in Ha, Hab. apply IZR_lt in Hb.
  assert (Hinv : 0 < / IZR b) by (apply Rinv_0_lt_compat; exact Hb).
  assert (Hq : IZR a / IZR b <= 1).
  { apply Rmult_le_reg_r with (IZR b); [exact Hb|].
    unfold Rdiv. rewrite Rmult_assoc, Rinv_l by lra. lra. }
  assert (Hq0 : 0 <= IZR a / IZR b) by (unfold Rdiv; nra).
  lra.
Qed.

Lemma nag_line_in_range (ps : PlayerStats) (nag count : Z) :
  (0 <= count <= moves ps)%Z ->
  exists lines, nag_line ps nag count = Some lines /\ Forall report_line_in_range lines.
Proof.
  intros H. unfold nag_line. destruct (count >? 0)%Z; [|eexists; split; [reflexivity|constructor]].
  destruct (moves ps >? 0)%Z eqn:E.
  - rewrite py_div_positive by assumption. eexists. split; [reflexivity|].
    constructor; [|constructor]. cbn. apply ratio_in_range; assumption.
  - eexists. split; [reflexivity|]. constructor; [|constructor]. cbn. lra.
Qed.

Lemma player_section_in_range (ps : PlayerStats) :
  player_stats_consistent ps ->
  exists lines, player_section ps = Some lines /\ Forall report_line_in_range lines.
Proof.
  intros (H6 & H2 & H4 & Hta & Ham & Hacc0 & Hacc). unfold total_annotations in Hta.
  unfold player_section.
  rewrite average_accuracy_value, error_rate_value.
  assert (Havg : report_line_in_range
                   (if (accuracy_count ps >? 0)%Z
                    then AverageAccuracyLine (total_accuracy ps / IZR (accuracy_count ps))
                    else AverageAccuracyNA)).
  { destruct (accuracy_count ps >? 0)%Z eqn:E; [|exact I].
    apply Z.gtb_lt, IZR_lt in E. cbn.
    assert (Hinv : 0 < / IZR (accuracy_count ps)) by (apply Rinv_0_lt_compat; exact E).
    unfold Rdiv; nra. }
  destruct (total_annotations ps >? 0)%Z.
  - destruct (nag_line_in_range ps 6 (nag6 ps)) as (l6 & -> & F6); [lia|].
    destruct (nag_line_in_range ps 2 (nag2 ps)) as (l2 & -> & F2); [lia|].
    destruct (nag_line_in_range ps 4 (nag4 ps)) as (l4 & -> & F4); [lia|].
    eexists. split; [reflexivity|].
    repeat (apply Forall_app; split); try assumption.
    + constructor; [|constructor]. cbn.
      destruct (moves ps >? 0)%Z eqn:E; [|lra].
      apply ratio_in_range; [unfold total_annotations; lia | exact E].
    + constructor; [exact Havg | constructor].
  - eexists. split; [reflexivity|].
    constructor; [exact I|]. constructor; [exact Havg | constructor].
Qed.

(** On the statistics that [annotate_game] returns, the section of each
    player is produced without error and its figures are in range: the
    percentage of each NAG line and the error rate lie between 0 and 100,
    and the average accuracy, when it is not N/A, is not negative. *)
Theorem report_figures_in_range
    (engine : Engine) (depth : Z) (thresh_inac thresh_mistake thresh_blunder : R)
    (game : Game) (player : Player) :
  exists lines,
    player_section
      (player_stats
         (snd (fst (annotate_game engine depth thresh_inac thresh_mistake thresh_blunder
                      game)))
         player)
    = Some lines /\
    Forall report_line_in_range lines.
Proof.
  apply player_section_in_range.
  unfold annotate_game. cbn [fst snd].
  assert (H : stats_consistent
                (ls_stats (annotate_moves engine depth thresh_inac thresh_mistake
                             thresh_blunder (mainline game) (initial_state game)))).
  { apply (annotate_moves_invariant engine depth thresh_inac thresh_mistake thresh_blunder
             (fun st => stats_consistent (ls_stats st))).
    - apply annotate_ply_stats_consistent.
    - exact initial_stats_consistent. }
  destruct H as (Hw & Hb & _). destruct player; [exact Hw | exact Hb].
Qed.

Lemma comparison_some (stats : Stats) :
  (moves (stats_white stats) >? 0)%Z = true ->
  (moves (stats_black stats) >? 0)%Z = true ->
  exists wa ba,
    accuracy_or_zero (stats_white stats) = Some wa /\
    accuracy_or_zero (stats_black stats) = Some ba /\
    comparison stats =
    Some (Some {| white_accuracy := wa;
                  black_accuracy := ba;
                  white_error_rate :=
                    IZR (total_annotations (stats_white stats))
                    / IZR (moves (stats_white stats)) * 100;
                  black_error_rate :=
                    IZR (total_annotations (stats_black stats))
                    / IZR (moves (stats_black stats)) * 100;
                  verdict :=
                    if Rltb ba wa then WhiteMoreAccurate (wa - ba)
                    else if Rltb wa ba then BlackMoreAccurate (ba - wa)
                    else SimilarAccuracy |}).
Proof.
  intros Hw Hb. unfold comparison. rewrite Hw, Hb. cbn [andb].
  destruct (accuracy_or_zero_defined (stats_white stats)) as [wa Ewa].
  destruct (accuracy_or_zero_defined (stats_black stats)) as [ba Eba].
  exists wa, ba. rewrite Ewa, Eba, !py_div_positive by assumption.
  repeat split; reflexivity.
Qed.



(** For the statistics of a game, the comparison is there exactly when
    the main line has at least two plies. *)
Theorem comparison_present_iff_two_plies
    (engine : Engine) (depth : Z) (thresh_inac thresh_mistake thresh_blunder : R)
    (game : Game) :
  (exists c,
      comparison
        (snd (fst (annotate_game engine depth thresh_inac thresh_mistake thresh_blunder
                     game)))
      = Some (Some c)) <->
  (2 <= List.length (mainline game))%nat.
Proof.
  unfold annotate_game. cbn [fst snd].
  destruct (annotate_moves_moves engine depth thresh_inac thresh_mistake thresh_blunder
              (mainline game) (initial_state game)) as (Hw & Hb & _).
  cbv zeta in Hw, Hb.
  cbn [initial_state ls_stats ls_board initial_stats stats_white stats_black
       initial_player_stats moves] in Hw, Hb.
  set (stats := ls_stats (annotate_moves engine depth thresh_inac thresh_mistake
                            thresh_blunder (mainline game) (initial_state game))) in *.
  split.
  - intros [c H]. unfold comparison in H.
    destruct (moves (stats_white stats) >? 0)%Z eqn:Ew;
      destruct (moves (stats_black stats) >? 0)%Z eqn:Eb;
      cbn [andb] in H; try discriminate.
    apply Z.gtb_lt in Ew, Eb. rewrite Hw in Ew. rewrite Hb in Eb.
    destruct (turn (game_board game));
      Z.to_euclidean_division_equations; lia.
  - intros Hlen.
    destruct (comparison_some stats) as (wa & ba & _ & _ & ->).
    + apply Z.gtb_lt. rewrite Hw.
      destruct (turn (game_board game)); Z.to_euclidean_division_equations; lia.
    + apply Z.gtb_lt. rewrite Hb.
      destruct (turn (game_board game)); Z.to_euclidean_division_equations; lia.
    + eexists. reflexivity.
Qed.

(** ** The multi-line query *)

Lemma fold_left_collect {A B : Type} (f : A -> option B) (l : list A) (acc : list B) :
  fold_left (fun collected x =>
               match f x with
               | Some y => collected ++ [y]
               | None => collected
               end) l acc
  = acc ++ flat_map (fun x => match f x with Some y => [y] | None => [] end) l.
Proof.
  revert acc. induction l as [|x l IH]; intros acc; cbn [fold_left flat_map].
  - now rewrite app_nil_r.
  - rewrite IH. destruct (f x); [now rewrite <- app_assoc | reflexivity].
Qed.

Lemma get_top_moves_flat_map (engine : MultiPVEngine) (board : Board) (depth n : Z) :
  get_top_moves engine board depth n
  = flat_map (fun entry => match top_move_of entry with Some t => [t] | None => [] end)
      (entries_of (engine board depth n)).
Proof.
  unfold get_top_moves, entries_of. cbv zeta. rewrite fold_left_collect. reflexivity.
Qed.

Lemma flat_map_option_length {A B : Type} (f : A -> option B) (l : list A) :
  (List.length (flat_map (fun x => match f x with Some y => [y] | None => [] end) l)
   <= List.length l)%nat.
Proof.
  induction l as [|x l IH]; cbn [flat_map List.length]; [lia|].
  rewrite length_app. destruct (f x); cbn [List.length]; lia.
Qed.

(** [get_top_moves] returns at most one move per line of the reply, so at
    most [n] when the engine sends at most [n] lines.  Each returned pair
    comes from a line of the reply whose variation starts with the move,
    and its evaluation is the one [evaluate_position] gives for the score
    of that line.  Lines without a variation, with an empty one, or with a
    score that is neither in centipawns nor a mate are left out, and when
    no line is of that kind the result has one pair per line. *)
Theorem get_top_moves_sound
    (engine : MultiPVEngine) (board : Board) (depth n : Z) :
  let entries := entries_of (engine board depth n) in
  let top_moves := get_top_moves engine board depth n in
  (List.length top_moves <= List.length entries)%nat /\
  ((Z.of_nat (List.length entries) <= n)%Z -> (Z.of_nat (List.length top_moves) <= n)%Z) /\
  (forall (move : Move) (eval_score : R),
      In (move, eval_score) top_moves ->
      exists entry rest,
        In entry entries /\
        entry_pv entry = Some (move :: rest) /\
        evaluate_position (fun _ _ => entry_score entry) board depth = Some eval_score) /\
  (forall entry : InfoEntry,
      In entry entries ->
      entry_pv entry = None \/ entry_pv entry = Some [] \/ entry_score entry = OtherScore ->
      top_move_of entry = None) /\
  (Forall (fun entry => top_move_of entry <> None) entries ->
   List.length top_moves = List.length entries).
Proof.
  cbv zeta. rewrite get_top_moves_flat_map.
  set (entries := entries_of (engine board depth n)).
  pose proof (flat_map_option_length top_move_of entries) as Hlen.
  split; [exact Hlen|]. split; [lia|]. split; [|split].
  - intros move eval_score Hin. apply in_flat_map in Hin.
    destruct Hin as (entry & Hentry & Hin).
    unfold top_move_of in Hin.
    destruct (entry_pv entry) as [[|m rest]|] eqn:Hpv; try contradiction.
    exists entry, rest. split; [exact Hentry|].
    unfold evaluate_position.
    destruct (entry_score entry); cbn in Hin; try contradiction;
      destruct Hin as [Hin | []]; injection Hin as <- <-;
      (split; [exact Hpv | reflexivity]).
  - intros entry _ [H | [H | H]]; unfold top_move_of; rewrite H; try reflexivity.
    destruct (entry_pv entry) as [[|m rest]|]; reflexivity.
  - clear Hlen. intros Hall. induction entries as [|entry l IH]; [reflexivity|].
    inversion Hall as [|e l' He Hl]; subst.
    cbn [flat_map]. rewrite length_app.
    destruct (top_move_of entry); [|contradiction].
    rewrite (IH Hl). reflexivity.
Qed.

Lemma get_top_moves_sound_witness :
  get_top_moves sample_multipv initial_board 25 5 = [("e4"%string, 30 / 100); ("d4"%string, -100)] /\
  (Z.of_nat (List.length (get_top_moves sample_multipv initial_board 25 5)) <= 5)%Z.
Proof.
  split; [reflexivity|].
  apply (proj1 (proj2 (get_top_moves_sound sample_multipv initial_board 25 5))).
  cbn. lia.
Defined.

(** ** Cleaning a game *)

(** Induction along the first variation of each node. *)
Lemma GameNode_first_variation_ind (P : GameNode -> Prop) :
  (forall move comment nags, P (Node move comment nags [])) ->
  (forall move comment nags main others,
      P main -> P (Node move comment nags (main :: others))) ->
  forall node, P node.
Proof.
  intros Hleaf Hnode. fix IH 1.
  intros [move comment nags [|main others]].
  - apply Hleaf.
  - apply Hnode, IH.
Qed.

Lemma cleaned_node_mainline (node : GameNode) :
  node_mainline (keep_mainline_only (clean_node node)) = node_mainline node.
Proof.
  induction node as [move comment nags | move comment nags main others IH]
    using GameNode_first_variation_ind.
  - reflexivity.
  - cbn [clean_node map keep_mainline_only node_mainline]. now rewrite IH.
Qed.

Lemma cleaned_node_bare (node : GameNode) :
  bare_line (keep_mainline_only (clean_node node)) = true.
Proof.
  induction node as [move comment nags | move comment nags main others IH]
    using GameNode_first_variation_ind.
  - reflexivity.
  - cbn [clean_node map keep_mainline_only bare_line]. exact IH.
Qed.

Lemma cleaned_node_fixed (node : GameNode) :
  keep_mainline_only (clean_node (keep_mainline_only (clean_node node)))
  = keep_mainline_only (clean_node node).
Proof.
  induction node as [move comment nags | move comment nags main others IH]
    using GameNode_first_variation_ind.
  - reflexivity.
  - cbn [clean_node map keep_mainline_only]. now rewrite IH.
Qed.

Lemma cleaned_node_count (node : GameNode) :
  node_count (keep_mainline_only (clean_node node)) = List.length (node_mainline node).
Proof.
  induction node as [move comment nags | move comment nags main others IH]
    using GameNode_first_variation_ind.
  - reflexivity.
  - cbn [clean_node map keep_mainline_only node_count node_mainline List.length].
    unfold list_sum. cbn [fold_right]. rewrite IH. lia.
Qed.

(** After [clean_game_annotations] the game has no comment and no NAG on
    any node and no node has a second variation; the nodes that remain are
    exactly those of the main line. *)
Theorem clean_game_annotations_bare (game : GameTree) :
  bare_game (clean_game_annotations game) = true /\
  list_sum (map node_count (tree_variations (clean_game_annotations game)))
  = List.length (mainline (game_of_tree game)).
Proof.
  unfold bare_game, clean_game_annotations, game_of_tree.
  cbn [tree_comment tree_nags tree_variations mainline].
  destruct (tree_variations game) as [|main others]; cbn [map].
  - split; reflexivity.
  - split; [apply cleaned_node_bare|].
    unfold list_sum. cbn [fold_right]. rewrite cleaned_node_count. lia.
Qed.

(** Cleaning changes neither the starting board nor the moves of the main
    line, so the analysis of the cleaned game is the analysis of the game
    as it was read; and cleaning a cleaned game changes nothing. *)
Theorem clean_game_annotations_keeps_main_line (game : GameTree) :
  game_of_tree (clean_game_annotations game) = game_of_tree game /\
  (forall (engine : Engine) (depth : Z) (thresh_inac thresh_mistake thresh_blunder : R),
      annotate_game engine depth thresh_inac thresh_mistake thresh_blunder
        (game_of_tree (clean_game_annotations game))
      = annotate_game engine depth thresh_inac thresh_mistake thresh_blunder
          (game_of_tree game)) /\
  clean_game_annotations (clean_game_annotations game) = clean_game_annotations game.
Proof.
  assert (H : game_of_tree (clean_game_annotations game) = game_of_tree game).
  { unfold game_of_tree, clean_game_annotations. cbn [tree_board tree_variations].
    destruct (tree_variations game) as [|main others]; cbn [map]; [reflexivity|].
    now rewrite cleaned_node_mainline. }
  split; [exact H|]. split.
  - intros. now rewrite H.
  - unfold clean_game_annotations. cbn [tree_board tree_variations].
    destruct (tree_variations game) as [|main others]; cbn [map]; [reflexivity|].
    now rewrite cleaned_node_fixed.
Qed.

Lemma clean_game_annotations_sample :
  clean_game_annotations sample_tree
  = {| tree_board := initial_board;
       tree_comment := EmptyString;
       tree_nags := [];
       tree_variations :=
         [ Node "e4"%string EmptyString []
             [ Node "e5"%string EmptyString []
                 [ Node "Nf3"%string EmptyString [] [] ] ] ] |}.
Proof. reflexivity. Qed.

(** ** Escaping and stress marks (lexicon.py) *)

Lemma escape_yaml_string_cons (c : ascii) (s : string) :
  escape_yaml_string (String c s)
  = if Ascii.eqb c double_quote
    then String backslash (String double_quote (escape_yaml_string s))
    else String c (escape_yaml_string s).
Proof.
  unfold escape_yaml_string. cbn [str_replace_char].
  destruct (Ascii.eqb c double_quote); reflexivity.
Qed.

Lemma escape_yaml_string_head (s t : string) :
  escape_yaml_string s <> String double_quote t.
Proof.
  destruct s as [|c s]; [discriminate|].
  rewrite escape_yaml_string_cons.
  destruct (Ascii.eqb c double_quote) eqn:E; [discriminate|].
  intros H. injection H as Hc _. subst c.
  rewrite Ascii.eqb_refl in E. discriminate.
Qed.

Lemma escape_yaml_string_injective (s1 s2 : string) :
  escape_yaml_string s1 = escape_yaml_string s2 -> s1 = s2.
Proof.
  revert s2. induction s1 as [|c1 s1 IH]; intros [|c2 s2] H.
  - reflexivity.
  - rewrite escape_yaml_string_cons in H.
    destruct (Ascii.eqb c2 double_quote); discriminate.
  - rewrite escape_yaml_string_cons in H.
    destruct (Ascii.eqb c1 double_quote); discriminate.
  - rewrite !escape_yaml_string_cons in H.
    destruct (Ascii.eqb c1 double_quote) eqn:E1;
      destruct (Ascii.eqb c2 double_quote) eqn:E2.
    + apply Ascii.eqb_eq in E1, E2. subst.
      injection H as H. f_equal. now apply IH.
    + injection H as _ H. symmetry in H. now apply escape_yaml_string_head in H.
    + injection H as _ H. now apply escape_yaml_string_head in H.
    + injection H as Hc H. subst. f_equal. now apply IH.
Qed.

Lemma escape_yaml_string_quotes (s : string) (i : nat) :
  String.get i (escape_yaml_string s) = Some double_quote ->
  exists j, i = S j /\ String.get j (escape_yaml_string s) = Some backslash.
Proof.
  revert i. induction s as [|c s IH]; intros i H.
  - destruct i; discriminate.
  - rewrite escape_yaml_string_cons in *.
    destruct (Ascii.eqb c double_quote) eqn:E.
    + destruct i as [|[|i]].
      * discriminate.
      * exists 0%nat. split; reflexivity.
      * cbn [String.get] in H. destruct (IH i H) as (j & -> & Hj).
        exists (S (S j)). split; [reflexivity|]. exact Hj.
    + destruct i as [|i].
      * cbn [String.get] in H. injection H as ->.
        rewrite Ascii.eqb_refl in E. discriminate.
      * cbn [String.get] in H. destruct (IH i H) as (j & -> & Hj).
        exists (S j). split; [reflexivity|]. exact Hj.
Qed.

Lemma escape_yaml_string_length (s : string) :
  String.length (escape_yaml_string s)
  = (String.length s + str_count_char double_quote s)%nat.
Proof.
  induction s as [|c s IH]; [reflexivity|].
  rewrite escape_yaml_string_cons. cbn [str_count_char String.length].
  destruct (Ascii.eqb c double_quote); cbn [String.length]; rewrite IH; lia.
Qed.

(** [escape_yaml_string] is injective: two different strings never get
    the same escaped form.  In its result every double quote comes right
    after a backslash, and the result is longer than the argument by the
    number of double quotes in it. *)
Theorem escape_yaml_string_properties :
  (forall s1 s2 : string, escape_yaml_string s1 = escape_yaml_string s2 -> s1 = s2) /\
  (forall (s : string) (i : nat),
      String.get i (escape_yaml_string s) = Some double_quote ->
      exists j, i = S j /\ String.get j (escape_yaml_string s) = Some backslash) /\
  (forall s : string,
      String.length (escape_yaml_string s)
      = (String.length s + str_count_char double_quote s)%nat).
Proof.
  split; [exact escape_yaml_string_injective|].
  split; [exact escape_yaml_string_quotes | exact escape_yaml_string_length].
Qed.

Lemma escape_yaml_string_properties_witness :
  exists j,
    2%nat = S j /\
    String.get j (escape_yaml_string (String "a" (String double_quote "b")))
    = Some backslash.
Proof.
  apply (proj1 (proj2 escape_yaml_string_properties)
           (String "a" (String double_quote "b")) 2%nat).
  reflexivity.
Defined.

Lemma str_replace_char_absent (c : ascii) (new s : string) :
  str_contains_char c s = false -> str_replace_char c new s = s.
Proof.
  induction s as [|c' s IH]; [reflexivity|].
  cbn [str_contains_char str_replace_char]. intros H.
  apply orb_false_iff in H. destruct H as [Hc Hs].
  rewrite Hc, IH by assumption. reflexivity.
Qed.

Lemma str_remove_char_absent (c : ascii) (s : string) :
  str_contains_char c (str_replace_char c EmptyString s) = false.
Proof.
  induction s as [|c' s IH]; [reflexivity|].
  cbn [str_replace_char]. destruct (Ascii.eqb c' c) eqn:E.
  - exact IH.
  - cbn [str_contains_char]. rewrite E, IH. reflexivity.
Qed.

Lemma str_remove_char_length (c : ascii) (s : string) :
  (String.length (str_replace_char c EmptyString s) + str_count_char c s)%nat
  = String.length s.
Proof.
  induction s as [|c' s IH]; [reflexivity|].
  cbn [str_replace_char str_count_char String.length].
  destruct (Ascii.eqb c' c); cbn [String.append String.length]; lia.
Qed.

(** The stressed form is the input as typed, and the term is always the
    input with every asterisk removed, whether or not the input has one:
    the term contains no asterisk, equals the input when that has none,
    and is shorter than the input by the number of asterisks. *)
Theorem term_and_stressed_properties (term_input : string) :
  let term := fst (term_and_stressed term_input) in
  let stressed := snd (term_and_stressed term_input) in
  stressed = term_input /\
  term = str_replace_char asterisk EmptyString term_input /\
  str_contains_char asterisk term = false /\
  (str_contains_char asterisk term_input = false -> term = term_input) /\
  (String.length term + str_count_char asterisk term_input)%nat
  = String.length term_input.
Proof.
  cbv zeta. unfold term_and_stressed.
  destruct (str_contains_char asterisk term_input) eqn:E; cbn [fst snd].
  - split; [reflexivity|]. split; [reflexivity|].
    split; [apply str_remove_char_absent|].
    split; [discriminate | apply str_remove_char_length].
  - split; [reflexivity|].
    split; [symmetry; now apply str_replace_char_absent|].
    split; [exact E|]. split; [reflexivity|].
    pose proof (str_remove_char_length asterisk term_input) as H.
    rewrite (str_replace_char_absent asterisk EmptyString term_input E) in H.
    exact H.
Qed.

Lemma term_and_stressed_properties_witness :
  fst (term_and_stressed "bonjour") = "bonjour"%string /\
  term_and_stressed "he*ro" = ("hero"%string, "he*ro"%string).
Proof.
  split; [|reflexivity].
  apply (proj1 (proj2 (proj2 (proj2 (term_and_stressed_properties "bonjour"))))).
  reflexivity.
Defined.

(** ** Adding verbs (add_verbs.py) *)

Section AddVerbsFacts.

Variable strip : string -> string.

Lemma read_verbs_appends_bounded (n : nat) :
  forall (inputs : list string) (verbs result : list Verb),
    (List.length inputs <= n)%nat ->
    read_verbs strip inputs verbs = Some result ->
    exists entered blank rest,
      inputs = lines_of_verbs entered ++ blank :: rest /\
      Forall (fun lines => str_is_empty (strip (fst (fst lines))) = false) entered /\
      str_is_empty (strip blank) = true /\
      result = verbs ++ map (verb_of_lines strip) entered.
Proof.
  induction n as [|n IH]; intros inputs verbs result Hn H.
  - destruct inputs; [discriminate | cbn in Hn; lia].
  - destruct inputs as [|line rest]; [discriminate|].
    cbn [read_verbs] in H. cbv zeta in H.
    destruct (str_is_empty (strip line)) eqn:E.
    + injection H as <-. exists [], line, rest.
      split; [reflexivity|]. split; [constructor|]. split; [exact E|].
      now rewrite app_nil_r.
    + destruct rest as [|past_line [|participle_line rest']]; try discriminate.
      apply IH in H; [|cbn [List.length] in *; lia].
      destruct H as (entered & blank & rest & -> & Hall & Hblank & ->).
      exists ((line, past_line, participle_line) :: entered), blank, rest.
      split; [reflexivity|].
      split; [constructor; [exact E | exact Hall]|].
      split; [exact Hblank|].
      rewrite <- app_assoc. reflexivity.
Qed.

Lemma read_verbs_entered (entered : list (string * string * string))
    (blank : string) (rest : list string) :
  Forall (fun lines => str_is_empty (strip (fst (fst lines))) = false) entered ->
  str_is_empty (strip blank) = true ->
  forall verbs,
    read_verbs strip (lines_of_verbs entered ++ blank :: rest) verbs
    = Some (verbs ++ map (verb_of_lines strip) entered).
Proof.
  intros Hall Hblank. induction Hall as [|[[base past] participle] entered Hb Hall IH];
    intros verbs.
  - cbn [lines_of_verbs flat_map app read_verbs map]. cbv zeta.
    rewrite Hblank. now rewrite app_nil_r.
  - cbn [lines_of_verbs flat_map app read_verbs map]. cbv zeta.
    cbn [fst] in Hb. rewrite Hb.
    change (flat_map _ entered) with (lines_of_verbs entered).
    rewrite IH, <- app_assoc. reflexivity.
Qed.

Lemma read_verbs_needs_blank_bounded (n : nat) :
  forall (inputs : list string) (verbs : list Verb),
    (List.length inputs <= n)%nat ->
    (forall line, In line inputs -> str_is_empty (strip line) = false) ->
    read_verbs strip inputs verbs = None.
Proof.
  induction n as [|n IH]; intros inputs verbs Hn H.
  - destruct inputs; [reflexivity | cbn in Hn; lia].
  - destruct inputs as [|line rest]; [reflexivity|].
    cbn [read_verbs]. cbv zeta.
    rewrite (H line) by (left; reflexivity).
    destruct rest as [|past_line [|participle_line rest']]; try reflexivity.
    apply IH; [cbn [List.length] in *; lia|].
    intros l Hl. apply H. right; right; right. exact Hl.
Qed.

End AddVerbsFacts.

(** When add_verbs.py saves, the input began with the three lines of
    each verb entered, every base form non-empty after stripping, followed
    by a blank line, and the list saved is the list loaded followed by the
    verbs made of these lines, stripped, in the order of entry: no
    existing verb is lost, changed or moved.  Conversely every input of
    that form, typed without the help flag, makes add_verbs.py save
    exactly that list, whatever follows the blank line. *)
Theorem add_verbs_appends (strip : string -> string) (file : option (list Verb)) :
  (forall (args inputs : list string) (verbs : list Verb),
      add_verbs_main strip args file inputs = Saved verbs ->
      exists entered blank rest,
        inputs = lines_of_verbs entered ++ blank :: rest /\
        Forall (fun lines => str_is_empty (strip (fst (fst lines))) = false) entered /\
        str_is_empty (strip blank) = true /\
        verbs = load_verbs file ++ map (verb_of_lines strip) entered) /\
  (forall (entered : list (string * string * string)) (blank : string)
          (rest : list string),
      Forall (fun lines => str_is_empty (strip (fst (fst lines))) = false) entered ->
      str_is_empty (strip blank) = true ->
      add_verbs_main strip [] file (lines_of_verbs entered ++ blank :: rest)
      = Saved (load_verbs file ++ map (verb_of_lines strip) entered)).
Proof.
  split.
  - intros args inputs verbs H. unfold add_verbs_main in H.
    assert (Hr : read_verbs strip inputs (load_verbs file) = Some verbs).
    { destruct args as [|first others].
      - destruct (read_verbs strip inputs (load_verbs file)); [|discriminate].
        now injection H as ->.
      - destruct (String.eqb first "-h" || String.eqb first "--help")%bool;
          [discriminate|].
        destruct (read_verbs strip inputs (load_verbs file)); [|discriminate].
        now injection H as ->. }
    eapply read_verbs_appends_bounded; [|exact Hr]. apply Nat.le_refl.
  - intros entered blank rest Hall Hblank. unfold add_verbs_main.
    rewrite (read_verbs_entered strip entered blank rest Hall Hblank). reflexivity.
Qed.

Lemma add_verbs_appends_witness :
  add_verbs_main (fun s => s) [] (Some [mkVerb "be" "was" "been"])
    ["go"; "went"; "gone"; "see"; "saw"; "seen"; EmptyString; "ignored"]%string
  = Saved [mkVerb "be" "was" "been"; mkVerb "go" "went" "gone"; mkVerb "see" "saw" "seen"].
Proof.
  apply (proj2 (add_verbs_appends (fun s => s) (Some [mkVerb "be" "was" "been"]))
           [("go", "went", "gone"); ("see", "saw", "seen")]%string
           EmptyString ["ignored"]%string).
  - repeat constructor.
  - reflexivity.
Defined.

(** Nothing is saved unless the input contains a blank base form: when no
    line of the input is blank after stripping, add_verbs.py ends with
    [EOFError] (or with the help text) and the verbs entered are lost. *)
Theorem add_verbs_needs_blank_line
    (strip : string -> string) (args : list string) (file : option (list Verb))
    (inputs : list string) :
  (forall line, In line inputs -> str_is_empty (strip line) = false) ->
  forall verbs, add_verbs_main strip args file inputs <> Saved verbs.
Proof.
  intros H verbs. unfold add_verbs_main.
  rewrite (read_verbs_needs_blank_bounded strip (List.length inputs) inputs
             (load_verbs file) (Nat.le_refl _) H).
  destruct args as [|first rest]; [discriminate|].
  destruct (String.eqb first "-h" || String.eqb first "--help")%bool; discriminate.
Qed.

Lemma add_verbs_needs_blank_line_witness :
  add_verbs_main (fun s => s) [] None ["go"; "went"; "gone"]%string
  <> Saved [mkVerb "go" "went" "gone"].
Proof.
  apply (add_verbs_needs_blank_line (fun s => s) [] None ["go"; "went"; "gone"]%string).
  intros line [<- | [<- | [<- | []]]]; reflexivity.
Defined.

(** ** Thresholds and accuracy *)

Lemma annotate_ply_accuracy_fields
    (engine : Engine) (depth : Z) (ti tm tb : R) (st : LoopState) (move : Move)
    (q : Player) :
  let st' := annotate_ply engine depth ti tm tb st move in
  let mine := Player_eqb (player_to_move (ls_board st)) q in
  moves (player_stats (ls_stats st') q)
  = (moves (player_stats (ls_stats st) q) + if mine then 1 else 0)%Z /\
  total_moves (ls_stats st') = (total_moves (ls_stats st) + 1)%Z /\
  accuracy_count (player_stats (ls_stats st') q)
  = (accuracy_count (player_stats (ls_stats st) q)
     + if mine then
         match ply_accuracy engine depth (ls_board st) move with
         | Some _ => 1
         | None => 0
         end
       else 0)%Z /\
  total_accuracy (player_stats (ls_stats st') q)
  = total_accuracy (player_stats (ls_stats st) q)
    + (if mine then
         match ply_accuracy engine depth (ls_board st) move with
         | Some acc => acc
         | None => 0
         end
       else 0).
Proof.
  cbv zeta. unfold annotate_ply, ply_annotation, ply_accuracy. cbn zeta.
  destruct (evaluate_position engine (ls_board st) depth) as [eb|];
    destruct (evaluate_position engine (push (ls_board st) move) depth) as [ea|];
    cbn [win_percent_of ls_stats];
    destruct (ls_move_number st >? 2)%Z;
    try destruct (classify_change ti tm tb
                    (eval_change_of (player_to_move (ls_board st)) eb ea)) as [a|];
    try destruct a;
    destruct (player_to_move (ls_board st)), q; cbn;
    repeat split; try lia; try ring.
Qed.

Lemma annotate_moves_same_accuracy
    (engine : Engine) (depth : Z) (ti1 tm1 tb1 ti2 tm2 tb2 : R) (remaining : list Move) :
  forall st1 st2 : LoopState,
    same_accuracy_statistics st1 st2 ->
    same_accuracy_statistics
      (annotate_moves engine depth ti1 tm1 tb1 remaining st1)
      (annotate_moves engine depth ti2 tm2 tb2 remaining st2).
Proof.
  induction remaining as [|m l IH]; intros st1 st2 H; [exact H|].
  apply IH. destruct H as (Hb & Ht & Hq).
  split; [|split].
  - change (push (ls_board st1) m = push (ls_board st2) m). now rewrite Hb.
  - destruct (annotate_ply_accuracy_fields engine depth ti1 tm1 tb1 st1 m white)
      as (_ & -> & _).
    destruct (annotate_ply_accuracy_fields engine depth ti2 tm2 tb2 st2 m white)
      as (_ & -> & _).
    now rewrite Ht.
  - intros q. destruct (Hq q) as (Hm & Hc & Ha).
    destruct (annotate_ply_accuracy_fields engine depth ti1 tm1 tb1 st1 m q)
      as (-> & _ & -> & ->).
    destruct (annotate_ply_accuracy_fields engine depth ti2 tm2 tb2 st2 m q)
      as (-> & _ & -> & ->).
    cbv zeta. rewrite Hb, Hm, Hc, Ha. repeat split; reflexivity.
Qed.

(** The thresholds have no influence on the accuracy statistics: two
    analyses of the same game with the same engine and depth but different
    thresholds give the same total and per-player move counts, accuracy
    counts and accuracy sums.  Only the severity counters, the NAGs and
    the list of annotated moves can differ. *)
Theorem accuracy_statistics_ignore_thresholds
    (engine : Engine) (depth : Z) (ti1 tm1 tb1 ti2 tm2 tb2 : R) (game : Game) :
  let stats1 := snd (fst (annotate_game engine depth ti1 tm1 tb1 game)) in
  let stats2 := snd (fst (annotate_game engine depth ti2 tm2 tb2 game)) in
  total_moves stats1 = total_moves stats2 /\
  forall player : Player,
    moves (player_stats stats1 player) = moves (player_stats stats2 player) /\
    accuracy_count (player_stats stats1 player)
    = accuracy_count (player_stats stats2 player) /\
    total_accuracy (player_stats stats1 player)
    = total_accuracy (player_stats stats2 player) /\
    average_accuracy (player_stats stats1 player)
    = average_accuracy (player_stats stats2 player).
Proof.
  cbv zeta. unfold annotate_game. cbn [fst snd].
  destruct (annotate_moves_same_accuracy engine depth ti1 tm1 tb1 ti2 tm2 tb2
              (mainline game) (initial_state game) (initial_state game))
    as (_ & Ht & Hq).
  { repeat split; reflexivity. }
  split; [exact Ht|].
  intros player. destruct (Hq player) as (Hm & Hc & Ha).
  repeat split; try assumption.
  unfold average_accuracy. rewrite Hc, Ha. reflexivity.
Qed.

Lemma comparison_present_iff_two_plies_witness :
  exists c,
    comparison
      (snd (fst (annotate_game (scripted_engine shifted_scores) 25 0.4 0.8 1.8
                   shifted_game)))
    = Some (Some c).
Proof.
  apply (proj2 (comparison_present_iff_two_plies
                  (scripted_engine shifted_scores) 25 0.4 0.8 1.8 shifted_game)).
  cbn. lia.
Defined.
